(** * vw-offline-manual-creator: the assembly, link-rewrite and resource passes

    A shallow embedding of [vw-offline-manual-creator.py].  Python strings are
    [string], dictionaries are [gmap]s (or association lists where the
    iteration order matters), exceptions are an explicit result type, and the
    BeautifulSoup document is the sequence of its elements in document order,
    each carrying its attribute dictionary. *)

From Stdlib Require Import Ascii.
From stdpp Require Import gmap strings list fin_maps.

Set Warnings "-register-all,-clear-no-such-hyp".

(** ** Exceptions and results *)

Inductive exn :=
  | KeyError (key : string)
  | AttributeError
  | IndexError
  | TypeError
  | ConnectionError
  | OSError
  | SystemExit (code : nat).

Inductive result (A : Type) :=
  | Ok (a : A)
  | Raise (e : exn).
Arguments Ok {A} a.
Arguments Raise {A} e.

Definition is_ok {A} (r : result A) : bool :=
  match r with Ok _ => true | Raise _ => false end.

(** ** Python string primitives used by the script *)

Module PyStr.

(** [s.startswith(p)] *)
Definition startswith (p s : string) : bool := String.prefix p s.

(** [p in s] *)
Fixpoint contains (p s : string) : bool :=
  match s with
  | EmptyString => String.prefix p EmptyString
  | String _ s' => String.prefix p s || contains p s'
  end.

(** [c in s] for a one-character needle *)
Fixpoint has_char (c : ascii) (s : string) : bool :=
  match s with
  | EmptyString => false
  | String a s' => bool_decide (a = c) || has_char c s'
  end.

(** [s[1:]] *)
Definition tail (s : string) : string :=
  match s with EmptyString => EmptyString | String _ s' => s' end.

(** [s[n:]] *)
Fixpoint drop (n : nat) (s : string) : string :=
  match n, s with
  | S k, String _ s' => drop k s'
  | _, _ => s
  end.

(** [new.join(list(s))] framed by [new]: what [replace] with an empty pattern gives. *)
Fixpoint interleave (new s : string) : string :=
  match s with
  | EmptyString => new
  | String c s' => new +:+ String c (interleave new s')
  end.

(** The left-to-right scan of [s.replace(old, new)] for a non-empty [old]:
    [skip] counts the characters of a match that is being stepped over. *)
Fixpoint replace_go (old new : string) (skip : nat) (s : string) : string :=
  match s with
  | EmptyString => EmptyString
  | String c s' =>
      match skip with
      | S k => replace_go old new k s'
      | O =>
          if String.prefix old s
          then new +:+ replace_go old new (String.length old - 1) s'
          else String c (replace_go old new 0 s')
      end
  end.

(** [s.replace(old, new)] *)
Definition replace (old new s : string) : string :=
  match old with
  | EmptyString => interleave new s
  | _ => replace_go old new 0 s
  end.

(** The text before the last occurrence of [sep] in [s], if there is one. *)
Fixpoint before_last (sep s : string) : option string :=
  let here := if String.prefix sep s then Some EmptyString else None in
  match s with
  | EmptyString => here
  | String a s' =>
      match before_last sep s' with
      | Some h => Some (String a h)
      | None => here
      end
  end.

(** The text after the last occurrence of [sep] in [s], if there is one. *)
Fixpoint after_last (sep s : string) : option string :=
  let here := if String.prefix sep s
              then Some (drop (String.length sep) s) else None in
  match s with
  | EmptyString => here
  | String a s' =>
      match after_last sep s' with
      | Some t => Some t
      | None => here
      end
  end.

(** [s.rsplit(sep, maxsplit=1)]: one or two parts. *)
Definition rsplit1 (sep s : string) : list string :=
  match before_last sep s, after_last sep s with
  | Some h, Some t => [h; t]
  | _, _ => [s]
  end.

(** [s.rsplit(sep, maxsplit=1)[0]] *)
Definition rsplit1_head (sep s : string) : string :=
  match before_last sep s with
  | Some h => h
  | None => s
  end.

(** The scan of [s.split(sep)] for a non-empty [sep]: [cur] is the part
    being accumulated (reversed), [skip] as in [replace_go]. *)
Fixpoint split_go (sep : string) (skip : nat) (cur : string) (s : string)
  : list string :=
  match s with
  | EmptyString => [String.rev cur]
  | String c s' =>
      match skip with
      | S k => split_go sep k cur s'
      | O =>
          if String.prefix sep s
          then String.rev cur :: split_go sep (String.length sep - 1) EmptyString s'
          else split_go sep 0 (String c cur) s'
      end
  end.

(** [s.split(sep)] for a non-empty separator *)
Definition split (sep s : string) : list string := split_go sep 0 EmptyString s.

(** The longest prefix of [s] whose characters all satisfy [p], and the
    rest: what a greedy character class consumes. *)
Fixpoint span (p : ascii -> bool) (s : string) : string * string :=
  match s with
  | EmptyString => (EmptyString, EmptyString)
  | String a s' =>
      if p a then let '(h, t) := span p s' in (String a h, t)
      else (EmptyString, s)
  end.

End PyStr.

(** ** TemplateEngine: [replace_in_template] *)

Module Template.

(** The [{{KEY}}] token of a placeholder: ['{{'+k+'}}']. *)
Definition token (k : string) : string := "{{" +:+ k +:+ "}}".

(** [replace_in_template(template_str, dict_replace)].  The dictionary is an
    association list in insertion order, the order [dict.items()] yields. *)
Definition replace_in_template (template_str : string)
    (dict_replace : list (string * string)) : string :=
  fold_left (fun t kv => PyStr.replace (token kv.1) kv.2 t)
            dict_replace template_str.

(** *** Templates as literal text and placeholders *)

(** A template seen as a sequence of literal texts and placeholders. *)
Inductive piece :=
  | Lit (s : string)
  | Hole (k : string).

(** The text of a template. *)
Fixpoint render (ps : list piece) : string :=
  match ps with
  | [] => EmptyString
  | Lit s :: ps' => s +:+ render ps'
  | Hole k :: ps' => token k +:+ render ps'
  end.

(** [d.get(k)] on the association list of a dictionary. *)
Fixpoint assoc (k : string) (d : list (string * string)) : option string :=
  match d with
  | [] => None
  | (k', v) :: d' => if bool_decide (k' = k) then Some v else assoc k d'
  end.

(** A placeholder filled with the value of its key, when it has one. *)
Definition fill1 (d : list (string * string)) (p : piece) : piece :=
  match p with
  | Lit s => Lit s
  | Hole k =>
      match assoc k d with
      | Some v => Lit v
      | None => Hole k
      end
  end.

(** The template with every placeholder filled at once. *)
Definition fill (d : list (string * string)) (ps : list piece) : string :=
  render (map (fill1 d) ps).

(** A placeholder replaced by the pieces of a value that is itself a
    template. *)
Definition splice1 (k : string) (qs : list piece) (p : piece) : list piece :=
  match p with
  | Lit s => [Lit s]
  | Hole k' => if bool_decide (k' = k) then qs else [Hole k']
  end.

Definition splice (k : string) (qs ps : list piece) : list piece :=
  concat (map (splice1 k qs) ps).

(** A text without an opening brace; a key without any brace. *)
Definition no_open (s : string) : Prop := PyStr.has_char "{" s = false.
Definition brace_free (k : string) : Prop :=
  PyStr.has_char "{" k = false ∧ PyStr.has_char "}" k = false.

Definition plain (p : piece) : Prop :=
  match p with
  | Lit s => no_open s
  | Hole k => brace_free k
  end.

(** The five templates read from the [templates] folder. *)
Record templates := Templates {
  index : string;
  topic_w_children : string;
  topic_wo_children : string;
  toc_w_children : string;
  toc_wo_children : string
}.

End Template.

(** ** TreeAssembler: [build_dom] and the top-level merge loop *)

Module Assembler.
Import Template.

(** An entry of [linkState]: [{'target': key | None}]. *)
Record link_state := LinkState { target : option string }.

(** A node of the tree the API returns ([j4['trees'][0]['children']]). *)
Inductive topic := Topic {
  nodeId : string;
  label : string;
  linkTarget : string;
  children : list topic
}.

(** What [session.get(...)], [raise_for_status()] and [r.json()] give for a
    content key: the decoded body and link state, an HTTP error status (the
    only exception [build_dom] catches), or another exception. *)
Inductive response :=
  | Fetched (bodyHtml : string) (linkState : gmap string link_state)
  | HTTPError (status : nat)
  | Failed (e : exn).

(** [d.update(e)]: the entries of [e] win. *)
Definition update {V} (d e : gmap string V) : gmap string V := e ∪ d.

(** Group 1 of the [re.match] of line 123 (with [re.DOTALL]).  The pattern
    reads: the literal <html, a run of characters other than >, one >, a
    greedy group of arbitrary characters, the literal </html>.  The match is
    anchored at the start of [content]; the run can only stop at the first
    >, and the greedy group extends to the last </html>. *)
Definition match_html (content : string) : option string :=
  if String.prefix "<html" content then
    let '(_, rest) :=
      PyStr.span (fun a => negb (bool_decide (a = ">"%char)))
                 (PyStr.drop 5 content) in
    match rest with
    | String _ inner => PyStr.before_last "</html>" inner
    | EmptyString => None
    end
  else None.

(** Lines 122-123: unwrap the document shell; [.group(1)] on [None] raises
    [AttributeError]. *)
Definition unwrap (content : string) : result string :=
  if PyStr.contains "</html>" content then
    match match_html content with
    | Some inner => Ok inner
    | None => Raise AttributeError
    end
  else Ok content.

(** The successive [update]s of a list of dictionaries onto [d]. *)
Definition updates {V} (d : gmap string V) (es : list (gmap string V))
  : gmap string V :=
  foldl update d es.

Definition rendered : Type := string * string * gmap string link_state.

(** The accumulation loop over children (lines 87-94 and 265-272). *)
Definition merge_loop {A} (f : A -> result rendered)
  : list A -> rendered -> result rendered :=
  fix go (cs : list A) (acc : rendered) : result rendered :=
    match cs with
    | [] => Ok acc
    | c :: cs' =>
        match f c with
        | Ok (body_child, toc_child, href_child) =>
            let '(b, t, h) := acc in
            go cs' (b +:+ body_child, t +:+ toc_child, update h href_child)
        | Raise e => Raise e
        end
    end.

Section build.
Variable fetch : string -> response.
Variable tpl : templates.
Variable crash_on_error : bool.
Variable toc_position : string.

(** Lines 114-131: the content and link state of a leaf. *)
Definition leaf_content (link : string)
  : result (string * gmap string link_state) :=
  if bool_decide (link = EmptyString) then Ok (EmptyString, ∅)
  else
    match fetch link with
    | Fetched body ls =>
        match unwrap body with
        | Ok content => Ok (content, ls)
        | Raise e => Raise e
        end
    | HTTPError _ =>
        if crash_on_error then Raise (SystemExit 1)
        else Ok ("<div></div>", ∅)
    | Failed e => Raise e
    end.

Fixpoint build_dom (t : topic) (level : nat) : result rendered :=
  match t with
  | Topic id lab link [] =>
      match leaf_content link with
      | Ok (content, html_href) =>
          let repl := [("TOPIC_ID", id); ("TOPIC_LINK", link);
                       ("TOPIC_TITLE", lab); ("TOPIC_CONTENT", content)] in
          Ok (replace_in_template (topic_wo_children tpl) repl,
              replace_in_template (toc_wo_children tpl) repl,
              html_href)
      | Raise e => Raise e
      end
  | Topic id lab link cs =>
      match merge_loop (fun c => build_dom c (S level)) cs (EmptyString, EmptyString, ∅) with
      | Ok (html_body_children, html_toc_children, html_href_children) =>
          let repl := [("TOPIC_ID", id); ("TOPIC_TITLE", lab);
                       ("TOPIC_CHILDREN", html_body_children);
                       ("TOC_CHILDREN", html_toc_children)] in
          let html_body := replace_in_template (topic_w_children tpl) repl in
          let html_toc :=
            if bool_decide (toc_position = "header") && negb (Nat.eqb level 0)
            then replace_in_template (toc_wo_children tpl)
                   (repl ++ [("TOPIC_LINK", "title" +:+ id)])
            else replace_in_template (toc_w_children tpl) repl in
          Ok (html_body, html_toc, html_href_children)
      | Raise e => Raise e
      end
  end.

(** Lines 265-272: concatenate the sections of the user guide. *)
Definition assemble (ug_json : list topic) : result rendered :=
  merge_loop (fun topic => build_dom topic 0) ug_json (EmptyString, EmptyString, ∅).

(** *** Notions the statements about the assembly use *)

(** The reference map fetched for a leaf with content key [link]: the
    [linkState] of the answer, and nothing when no fetch is made or the
    fetch gives no answer. *)
Definition leaf_map (link : string) : gmap string link_state :=
  if bool_decide (link = EmptyString) then ∅
  else match fetch link with
       | Fetched _ ls => ls
       | _ => ∅
       end.

(** The fetched reference maps of the leaves of a tree, in tree order. *)
Fixpoint leaf_maps (t : topic) : list (gmap string link_state) :=
  match t with
  | Topic _ _ link [] => [leaf_map link]
  | Topic _ _ _ cs => concat (map leaf_maps cs)
  end.

Definition forest_leaf_maps (ts : list topic)
  : list (gmap string link_state) :=
  concat (map leaf_maps ts).

End build.

(** [subtopic t T]: [t] is [T] or one of its descendants. *)
Inductive subtopic (t : topic) : topic -> Prop :=
  | subtopic_here : subtopic t t
  | subtopic_child id lab link cs c :
      c ∈ cs -> subtopic t c -> subtopic t (Topic id lab link cs).

End Assembler.


(** ** LinkGraphResolver: the two link-rewrite loops (lines 340-355) *)

Module Links.
Import Assembler.

(** The value of an attribute in [Tag.attrs]: a string, the list of a
    multi-valued attribute such as [class], or [None] once the rewrite has
    stored one. *)
Inductive attr_value :=
  | AStr (s : string)
  | AList (l : list string)
  | ANone.

Record element := Element {
  tag : string;
  attrs : gmap string attr_value
}.

(** The parsed document: its elements in document order.  The loops hold
    references into it, so an element is addressed by its position. *)
Abbreviation document := (list element).

(** *** A statement of the loop body: attribute store and exceptions *)

Definition act (A : Type) : Type :=
  gmap string attr_value -> gmap string attr_value * result A.

Definition raise {A} (e : exn) : act A := fun st => (st, Raise e).

#[export] Instance act_ret : MRet act := fun A a st => (st, Ok a).
#[export] Instance act_bind : MBind act := fun A B k m st =>
  match m st with
  | (st', Ok a) => k a st'
  | (st', Raise e) => (st', Raise e)
  end.

(** [a[k]] *)
Definition getitem (k : string) : act attr_value :=
  fun st =>
    match st !! k with
    | Some v => (st, Ok v)
    | None => (st, Raise (KeyError k))
    end.

(** [a[k] = v] *)
Definition setitem (k : string) (v : attr_value) : act unit :=
  fun st => (<[k := v]> st, Ok tt).

(** [del a.attrs[k]] *)
Definition delitem (k : string) : act unit :=
  fun st =>
    match st !! k with
    | Some _ => (delete k st, Ok tt)
    | None => (st, Raise (KeyError k))
    end.

(** [v[1:]] *)
Definition slice_from_1 (v : attr_value) : result attr_value :=
  match v with
  | AStr s => Ok (AStr (PyStr.tail s))
  | AList l => Ok (AList (tl l))
  | ANone => Raise TypeError
  end.

(** [v + t] for a string [t] *)
Definition concat (v : attr_value) (t : string) : result attr_value :=
  match v with
  | AStr s => Ok (AStr (s +:+ t))
  | _ => Raise TypeError
  end.

Definition lift {A} (r : result A) : act A := fun st => (st, r).

(** The value stored for a target: the key, or [None]. *)
Definition of_target (t : option string) : attr_value :=
  match t with
  | Some s => AStr s
  | None => ANone
  end.

(** [k in d] and [d[k]] for an attribute value used as a dictionary key:
    a list is unhashable, [None] is a key no link state has. *)
Definition dict_contains (d : gmap string link_state) (k : attr_value)
  : result bool :=
  match k with
  | AStr s => Ok (bool_decide (is_Some (d !! s)))
  | ANone => Ok false
  | AList _ => Raise TypeError
  end.

Definition dict_getitem (d : gmap string link_state) (k : attr_value)
  : result link_state :=
  match k with
  | AStr s =>
      match d !! s with
      | Some e => Ok e
      | None => Raise (KeyError s)
      end
  | ANone => Raise (KeyError "None")
  | AList _ => Raise TypeError
  end.

(** Lines 342-343, the body of the fragment-link loop. *)
Definition rewrite_fragment : act unit :=
  h ← getitem "href";
  g ← lift (slice_from_1 h);
  setitem "data-goto" g;;
  setitem "href" (AStr "#").

(** Lines 346-353, the two branches on [extend_mode]. *)
Definition rewrite_dynamic_href (extend_mode : string)
    (href_content : gmap string link_state) : act unit :=
  if bool_decide (extend_mode = "all") then
    setitem "href" (AStr "#");;
    i ← getitem "id";
    present ← lift (dict_contains href_content i);
    if present : bool then
      e ← lift (dict_getitem href_content i);
      match target e with
      | Some t =>
          h ← getitem "href";
          h' ← lift (concat h t);
          setitem "href" h'
      | None => mret tt
      end
    else mret tt
  else
    setitem "href" (AStr "#");;
    i ← getitem "id";
    e ← lift (dict_getitem href_content i);
    setitem "data-goto" (of_target (target e)).

(** Lines 346-355, the body of the dynamic-link loop. *)
Definition rewrite_dynamic (extend_mode : string)
    (href_content : gmap string link_state) : act unit :=
  rewrite_dynamic_href extend_mode href_content;;
  delitem "checked-link";;
  delitem "data-facets".

(** *** Selectors *)

(** [a[href^="#"]] *)
Definition is_fragment_link (e : element) : bool :=
  bool_decide (tag e = "a") &&
  match attrs e !! "href" with
  | Some (AStr h) => PyStr.startswith "#" h
  | _ => false
  end.

(** [a.dynamic-link] *)
Definition is_dynamic_link (e : element) : bool :=
  bool_decide (tag e = "a") &&
  match attrs e !! "class" with
  | Some (AList cl) => bool_decide ("dynamic-link" ∈ cl)
  | _ => false
  end.

(** [soup.select(...)]: the positions of the matching elements, in
    document order, computed before the loop starts. *)
Fixpoint select_from (p : element -> bool) (i : nat) (doc : document)
  : list nat :=
  match doc with
  | [] => []
  | e :: doc' =>
      if p e then i :: select_from p (S i) doc' else select_from p (S i) doc'
  end.

Definition select (p : element -> bool) (doc : document) : list nat :=
  select_from p 0 doc.

(** [for a in selection: body(a)], mutating the elements in place; an
    exception leaves the loop with the mutations made so far. *)
Fixpoint for_each (body : act unit) (sel : list nat) (doc : document)
  : document * result unit :=
  match sel with
  | [] => (doc, Ok tt)
  | i :: sel' =>
      match doc !! i with
      | Some e =>
          let '(st, r) := body (attrs e) in
          let doc' := <[i := Element (tag e) st]> doc in
          match r with
          | Ok _ => for_each body sel' doc'
          | Raise ex => (doc', Raise ex)
          end
      | None => for_each body sel' doc
      end
  end.

(** Lines 340-343: the fragment-link loop, skipped in 'all' mode. *)
Definition fragment_pass (extend_mode : string) (soup : document)
  : document * result unit :=
  if bool_decide (extend_mode = "all") then (soup, Ok tt)
  else for_each rewrite_fragment (select is_fragment_link soup) soup.

(** Lines 345-355: the dynamic-link loop. *)
Definition dynamic_pass (extend_mode : string)
    (href_content : gmap string link_state) (soup : document)
  : document * result unit :=
  for_each (rewrite_dynamic extend_mode href_content)
           (select is_dynamic_link soup) soup.

(** Lines 340-355. *)
Definition resolve (extend_mode : string)
    (href_content : gmap string link_state) (soup : document)
  : document * result unit :=
  match fragment_pass extend_mode soup with
  | (soup1, Ok _) => dynamic_pass extend_mode href_content soup1
  | (soup1, Raise ex) => (soup1, Raise ex)
  end.

End Links.

(** ** ResourceManifestBuilder: the CSS scan and the download loops *)

Module Manifest.
Import Links.

(** *** An insertion-ordered dictionary ([css_resources]) *)

(** [d[k] = v]: overwrite in place, or append a new key. *)
Fixpoint dict_set (k v : string) (d : list (string * string))
  : list (string * string) :=
  match d with
  | [] => [(k, v)]
  | (k', v') :: d' =>
      if bool_decide (k' = k) then (k, v) :: d' else (k', v') :: dict_set k v d'
  end.

Fixpoint dict_get (k : string) (d : list (string * string)) : option string :=
  match d with
  | [] => None
  | (k', v') :: d' => if bool_decide (k' = k) then Some v' else dict_get k d'
  end.

(** *** The scan for url references (lines 400-407) *)

Definition not_paren (a : ascii) : bool :=
  negb (bool_decide (a = "("%char)) && negb (bool_decide (a = ")"%char)).

(** One attempt of the pattern of line 401 at the start of [s]: the literal
    url and an opening parenthesis, a non-empty greedy run of characters
    other than parentheses (the group), a closing parenthesis.  Gives the
    group and the length of the whole match. *)
Definition match_url (s : string) : option (string * nat) :=
  if String.prefix "url(" s then
    match PyStr.span not_paren (PyStr.drop 4 s) with
    | (EmptyString, _) => None
    | (g, String c _) =>
        if bool_decide (c = ")"%char) then Some (g, 5 + String.length g)
        else None
    | (_, EmptyString) => None
    end
  else None.

(** [re.findall]: the groups of the non-overlapping matches, left to
    right; [skip] counts the characters of the match being stepped over. *)
Fixpoint findall_go (skip : nat) (s : string) : list string :=
  match s with
  | EmptyString => []
  | String _ s' =>
      match skip with
      | S k => findall_go k s'
      | O =>
          match match_url s with
          | Some (g, len) => g :: findall_go (len - 1) s'
          | None => findall_go 0 s'
          end
      end
  end.

Definition findall_url (css_text : string) : list string :=
  findall_go 0 css_text.

(** Lines 403-406: cut at the last "#", then at the last "?". *)
Definition normalize (rel_path : string) : string :=
  let rel_path :=
    if PyStr.contains "#" rel_path
    then PyStr.rsplit1_head "#" rel_path else rel_path in
  if PyStr.contains "?" rel_path
  then PyStr.rsplit1_head "?" rel_path else rel_path.

(** Lines 402-407: one reference found by the scan. *)
Definition scan_step (css_online_dir : string)
    (css_resources : list (string * string)) (rel_path : string)
  : list (string * string) :=
  if negb (PyStr.startswith "data:" rel_path) then
    let rel_path := normalize rel_path in
    dict_set rel_path (css_online_dir +:+ "/" +:+ rel_path) css_resources
  else css_resources.

(** Lines 401-407 for one stylesheet. *)
Definition scan_css (css_online_dir css_text : string)
    (css_resources : list (string * string)) : list (string * string) :=
  fold_left (scan_step css_online_dir) (findall_url css_text) css_resources.

(** Lines 382-383: the address of a stylesheet and its directory.  The
    address always holds a slash, so the split has its two parts. *)
Definition stylesheet_url (href : string) : string :=
  "https://userguide.volkswagen.de" +:+ href.

Definition css_online_dir (url : string) : string :=
  PyStr.rsplit1_head "/" url.

(** Lines 380-407 over the stylesheets of the page, each given by the
    [href] of its link and the text retrieved for it. *)
Definition scan_stylesheets (sheets : list (string * string))
  : list (string * string) :=
  fold_left
    (fun acc sheet =>
       scan_css (css_online_dir (stylesheet_url sheet.1)) sheet.2 acc)
    sheets [].

(** *** The download loops (lines 422-439) *)

(** The output folder: the files present in it and the calls of
    [download_file] made so far, oldest first, each with the address and the
    file it was to write.  A file is named as [locate] names it. *)
Record disk := Disk {
  files : gset string;
  requested : list (string * string)
}.

(** [only_missing d0 d]: from [d0] to [d] no file was lost, and every
    retrieval made since was for a path that had no file in [d0]. *)
Definition only_missing (d0 d : disk) : Prop :=
  files d0 ⊆ files d ∧
  ∃ new, requested d = requested d0 ++ new ∧
         ∀ url path, (url, path) ∈ new → path ∉ files d0.

(** How a call of [download_file] ends: the file is written; the server
    answers with an error status, which [raise_for_status] turns into the
    [HTTPError] that the function catches and logs; or another exception
    (of the request, of [mkdir], of [open], of a write) leaves the function,
    with the file created or not by then. *)
Inductive outcome :=
  | Saved
  | Refused
  | Broken (e : exn) (written : bool).

Section download.
(** What a call does, given the folder and the calls made so far, the
    address and the file. *)
Variable server : disk -> string -> string -> outcome.
(** The file that [subfolder] joined with the given components by the [/]
    of [pathlib] designates: two spellings of one file have one name. *)
Variable locate : list string -> string.
Variable legacy_str : string.

(** [download_file(session, url, local_filename)] *)
Definition download_file (url local_filename : string) (d : disk)
  : disk * result unit :=
  let asked := requested d ++ [(url, local_filename)] in
  match server d url local_filename with
  | Saved =>
      ({| files := {[local_filename]} ∪ files d; requested := asked |}, Ok tt)
  | Refused => ({| files := files d; requested := asked |}, Ok tt)
  | Broken e written =>
      ({| files := if written then {[local_filename]} ∪ files d else files d;
          requested := asked |}, Raise e)
  end.

(** [if not local_path.is_file(): download_file(...)] *)
Definition fetch_if_missing (url local_path : string) (d : disk)
  : disk * result unit :=
  if bool_decide (local_path ∈ files d) then (d, Ok tt)
  else download_file url local_path d.

(** Lines 423-433, the body of the image loop. *)
Definition mirror_image (a : gmap string attr_value) (d : disk)
  : gmap string attr_value * disk * result unit :=
  match a !! "data-src" with
  | None => (a, d, Raise (KeyError "data-src"))
  | Some (AStr src) =>
      let url :=
        if PyStr.startswith "https:" src then src
        else "https://userguide.volkswagen.de" +:+ legacy_str +:+ src in
      match PyStr.split "key=" url !! 1 with
      | None => (a, d, Raise IndexError)
      | Some filename =>
          let local_path := locate ["img"; filename] in
          match fetch_if_missing url local_path d with
          | (d', Ok _) => (<["src" := AStr ("img/" +:+ filename)]> a, d', Ok tt)
          | (d', Raise ex) => (a, d', Raise ex)
          end
      end
  | Some _ => (a, d, Raise AttributeError)
  end.

(** Lines 422-433: [for img in soup.findAll('img')]. *)
Fixpoint image_loop (sel : list nat) (soup : document) (d : disk)
  : document * disk * result unit :=
  match sel with
  | [] => (soup, d, Ok tt)
  | i :: sel' =>
      match soup !! i with
      | Some e =>
          let '(st, d', r) := mirror_image (attrs e) d in
          let soup' := <[i := Element (tag e) st]> soup in
          match r with
          | Ok _ => image_loop sel' soup' d'
          | Raise ex => (soup', d', Raise ex)
          end
      | None => image_loop sel' soup d
      end
  end.

(** Lines 436-439: [for rel_path, url in css_resources.items()]. *)
Fixpoint css_loop (css_resources : list (string * string)) (d : disk)
  : disk * result unit :=
  match css_resources with
  | [] => (d, Ok tt)
  | (rel_path, url) :: rest =>
      match fetch_if_missing url (locate [rel_path]) d with
      | (d', Ok _) => css_loop rest d'
      | (d', Raise ex) => (d', Raise ex)
      end
  end.

Definition is_img (e : element) : bool := bool_decide (tag e = "img").

(** Lines 422-439. *)
Definition download_resources (soup : document)
    (css_resources : list (string * string)) (d : disk)
  : document * disk * result unit :=
  match image_loop (select is_img soup) soup d with
  | (soup', d', Ok _) =>
      let '(d'', r) := css_loop css_resources d' in (soup', d'', r)
  | (soup', d', Raise ex) => (soup', d', Raise ex)
  end.

End download.

End Manifest.

(** Sample inputs: a two-level guide with three leaves, one of them without
    content on the server, and the answers of the server. *)
Module Samples.
Import Template Assembler Links Manifest.

Definition sample_templates : templates :=
  {| index := "<html><body>{{TOC_CONTENT}}{{USERGUIDE_CONTENT}}</body></html>";
     topic_w_children :=
       "<div id='{{TOPIC_ID}}'><h1>{{TOPIC_TITLE}}</h1>{{TOPIC_CHILDREN}}</div>";
     topic_wo_children :=
       "<div id='{{TOPIC_ID}}' data-key='{{TOPIC_LINK}}'>{{TOPIC_CONTENT}}</div>";
     toc_w_children := "<li>{{TOPIC_TITLE}}<ul>{{TOC_CHILDREN}}</ul></li>";
     toc_wo_children := "<li><a href='#{{TOPIC_LINK}}'>{{TOPIC_TITLE}}</a></li>" |}.

Definition sample_fetch (key : string) : response :=
  if bool_decide (key = "k1") then
    Fetched "<html lang='fr'><p>one</p></html>"
            {["a1" := LinkState (Some "k2")]}
  else if bool_decide (key = "k2") then
    Fetched "<p>two</p>" {["a2" := LinkState None]}
  else if bool_decide (key = "k4") then
    Fetched "<!DOCTYPE html><html><p>four</p></html>" ∅
  else HTTPError 404.

Definition missing_leaf : topic := Topic "n3" "Three" "k3" [].

Definition sample_guide : list topic :=
  [Topic "n0" "Chapter" EmptyString [Topic "n1" "One" "k1" []; missing_leaf];
   Topic "n2" "Two" "k2" []].

Definition sound_guide : list topic :=
  [Topic "n0" "Chapter" EmptyString [Topic "n1" "One" "k1" []];
   Topic "n2" "Two" "k2" []].

Definition sample_css : string :=
  "a{background:url(icons/x.png?v=2)} b{src:url(data:image/png;base64,AAA=)}".

Definition sample_page : list element :=
  [Element "img" {["data-src" := AStr "/api/img?key=abc.png"]}].

Definition a1_link : element :=
  Element "a"
    (<["id" := AStr "a1"]>
       (<["class" := AList ["dynamic-link"]]>
          (<["href" := AStr "javascript:void(0)"]>
             (<["checked-link" := AStr "true"]>
                (<["data-facets" := AStr "f"]> ∅))))).

Definition fig1_link : element :=
  Element "a" (<["href" := AStr "#fig1"]> ∅).

Definition unflagged_link : element :=
  Element "a"
    (<["id" := AStr "a1"]>
       (<["class" := AList ["dynamic-link"]]>
          (<["href" := AStr "javascript:void(0)"]>
             (<["checked-link" := AStr "true"]> ∅)))).

End Samples.

(** ** Further parts of the script *)

(** The content keys [build_dom] asks the server for. *)
Module Tree.
Import Assembler.

(** The keys of the leaves of a tree that have one, in tree order. *)
Fixpoint leaf_keys (t : topic) : list string :=
  match t with
  | Topic _ _ link [] => if bool_decide (link = EmptyString) then [] else [link]
  | Topic _ _ _ cs => concat (map leaf_keys cs)
  end.

End Tree.

(** The passes over the parsed page next to the link rewrite. *)
Module Page.
Import Assembler Links.

(** [div[id^="title"].tttitle, div.ttchildren] (line 332) *)
Definition has_class (c : string) (e : element) : bool :=
  match attrs e !! "class" with
  | Some (AList cl) => bool_decide (c ∈ cl)
  | _ => false
  end.

Definition is_expandable (e : element) : bool :=
  bool_decide (tag e = "div") &&
  ((match attrs e !! "id" with
    | Some (AStr i) => PyStr.startswith "title" i
    | _ => false
    end && has_class "tttitle" e)
   || has_class "ttchildren" e).

(** [v += l] for a list [l] *)
Definition extend (v : attr_value) (l : list string) : result attr_value :=
  match v with
  | AList cl => Ok (AList (cl ++ l))
  | _ => Raise TypeError
  end.

(** Line 333: [elt['class'] += ['selected']]. *)
Definition add_selected : act unit :=
  c ← getitem "class";
  c' ← lift (extend c ["selected"]);
  setitem "class" c'.

(** Lines 331-333. *)
Definition expand_all (extend_mode : string) (soup : document)
  : document * result unit :=
  if bool_decide (extend_mode = "all") then
    for_each add_selected (select is_expandable soup) soup
  else (soup, Ok tt).

(** What the body of the dynamic-link loop needs of a link to end normally:
    both volatile attributes, and an [id] that the branch on the mode can
    look up. *)
Definition link_ready (extend_mode : string)
    (href_content : gmap string link_state) (st : gmap string attr_value)
  : bool :=
  bool_decide (is_Some (st !! "checked-link")) &&
  bool_decide (is_Some (st !! "data-facets")) &&
  match st !! "id" with
  | Some (AStr k) =>
      bool_decide (extend_mode = "all") ||
      bool_decide (is_Some (href_content !! k))
  | Some ANone => bool_decide (extend_mode = "all")
  | _ => false
  end.

End Page.

(** The stylesheets of the online page (lines 372-407). *)
Module Stylesheets.
Import Manifest.

(** A [link] element as the parser gives it: [rel] is a multi-valued
    attribute, [href] and [media] are strings; [None] is an absent
    attribute. *)
Record css_link := CssLink {
  rel : option (list string);
  href : option string;
  media : option string
}.

(** [c.lower()] on the letters A to Z.  No other character lowers to a
    letter of "stylesheet", so the test of line 381 sees the same. *)
Definition lower_ascii (a : ascii) : ascii :=
  let n := nat_of_ascii a in
  if (65 <=? n) && (n <=? 90) then ascii_of_nat (n + 32) else a.

Fixpoint lower (s : string) : string :=
  match s with
  | EmptyString => EmptyString
  | String a s' => String (lower_ascii a) (lower s')
  end.

(** The two line feeds appended to each stylesheet. *)
Definition blank_line : string :=
  String (ascii_of_nat 10) (String (ascii_of_nat 10) EmptyString).

(** [css_screen], [css_print] and [css_resources]. *)
Definition buffers : Type := string * string * list (string * string).

Section sheets.
(** [http_session.get(url)]: the status code and the text. *)
Variable css_get : string -> nat * string.

(** Lines 381-407, the body of the loop over the [link] elements. *)
Definition stylesheet_step (st : buffers) (link : css_link) : result buffers :=
  match rel link with
  | None => Raise (KeyError "rel")
  | Some [] => Raise IndexError
  | Some (r0 :: _) =>
      if bool_decide (lower r0 = "stylesheet") then
        match href link with
        | None => Raise (KeyError "href")
        | Some h =>
            let url := stylesheet_url h in
            let dir := css_online_dir url in
            let '(status_code, css_text) := css_get url in
            if Nat.eqb status_code 200 then
              let '(css_screen, css_print, css_resources) := st in
              let css_resources := scan_css dir css_text css_resources in
              if bool_decide (media link = Some "print")
              then Ok (css_screen, css_print +:+ css_text +:+ blank_line,
                       css_resources)
              else Ok (css_screen +:+ css_text +:+ blank_line, css_print,
                       css_resources)
            else Raise (SystemExit 5)
        end
      else Ok st
  end.

(** Lines 375-407. *)
Fixpoint stylesheet_loop (links : list css_link) (st : buffers)
  : result buffers :=
  match links with
  | [] => Ok st
  | link :: links' =>
      match stylesheet_step st link with
      | Ok st' => stylesheet_loop links' st'
      | Raise e => Raise e
      end
  end.

(** *** Notions the statements about the loop use *)

(** A link the loop takes for a stylesheet, and one for the print buffer. *)
Definition is_sheet (link : css_link) : bool :=
  match rel link with
  | Some (r0 :: _) => bool_decide (lower r0 = "stylesheet")
  | _ => false
  end.

Definition is_print (link : css_link) : bool :=
  bool_decide (media link = Some "print").

(** The text retrieved for a link. *)
Definition sheet_text (link : css_link) : string :=
  match href link with
  | Some h => (css_get (stylesheet_url h)).2
  | None => EmptyString
  end.

(** The texts of the links that satisfy [p], each followed by the blank
    line, one after the other. *)
Fixpoint buffer_of (p : css_link -> bool) (links : list css_link) : string :=
  match links with
  | [] => EmptyString
  | link :: links' =>
      if p link then sheet_text link +:+ blank_line +:+ buffer_of p links'
      else buffer_of p links'
  end.

End sheets.

End Stylesheets.

(** Notions the statements about the download loops use. *)
Module Downloads.
Import Manifest.

(** Lines 423-426: the address an image is retrieved from. *)
Definition image_url (legacy_str src : string) : string :=
  if PyStr.startswith "https:" src then src
  else "https://userguide.volkswagen.de" +:+ legacy_str +:+ src.

(** [settled d]: no local path was asked for twice, and every path that was
    asked for has its file. *)
Definition settled (d : disk) : Prop :=
  NoDup (requested d).*2 ∧
  ∀ url path, (url, path) ∈ requested d → path ∈ files d.

End Downloads.

Module MoreSamples.
Import Assembler Links Manifest Stylesheets.

(** A folder in which the components of a path, joined by slashes, name
    the file, and a server that answers every call. *)
Definition plain_locate (components : list string) : string :=
  String.concat "/" components.

Definition always_saved (d : disk) (url file : string) : outcome := Saved.

(** A server that answers every call, on a folder where the empty path is
    the folder itself, which [open] refuses to write. *)
Definition folder_server (d : disk) (url file : string) : outcome :=
  if bool_decide (file = EmptyString) then Broken OSError false else Saved.

Definition title_div : element :=
  Element "div" (<["id" := AStr "title42"]>
                   (<["class" := AList ["tttitle"]]> ∅)).

Definition sample_css_get (url : string) : nat * string :=
  if bool_decide (url = "https://userguide.volkswagen.de/css/main.css")
  then (200, "a{background:url(icons/x.png?v=2)}")
  else if bool_decide (url = "https://userguide.volkswagen.de/css/print.css")
  then (200, "p{color:black}")
  else (404, "not found").

Definition sample_links : list css_link :=
  [CssLink (Some ["icon"]) (Some "/favicon.ico") None;
   CssLink (Some ["Stylesheet"]) (Some "/css/main.css") None;
   CssLink (Some ["stylesheet"]) (Some "/css/print.css") (Some "print")].

Definition two_images : list element :=
  [Element "img" {["data-src" := AStr "/api/img?key=abc.png"]};
   Element "p" ∅;
   Element "img" {["data-src" := AStr "/api/img?key=abc.png"]}].

End MoreSamples.

(** * Facts *)

(** ** The loops over a selection *)

Section loops.
Import Links.

Lemma select_from_spec p doc n i :
  i ∈ select_from p n doc ↔
  ∃ e, n ≤ i ∧ doc !! (i - n) = Some e ∧ p e = true.
Proof.
  revert n. induction doc as [|e doc IH]; intros n; simpl.
  - split; [by intros ?%elem_of_nil | by intros (? & _ & ? & _)].
  - assert (Hstep : i ∈ select_from p (S n) doc ↔
              ∃ e', n ≤ i ∧ i ≠ n ∧ doc !! (i - S n) = Some e' ∧ p e' = true).
    { rewrite IH. split.
      - intros (e' & ? & ? & ?). exists e'. repeat split; auto; lia.
      - intros (e' & ? & ? & ? & ?). exists e'. repeat split; auto; lia. }
    assert (Hhere : ∀ e', n ≤ i → i ≠ n →
              (e :: doc) !! (i - n) = Some e' ↔ doc !! (i - S n) = Some e').
    { intros e' ? ?. replace (i - n) with (S (i - S n)) by lia. done. }
    destruct (p e) eqn:Hp.
    + rewrite elem_of_cons, Hstep. split.
      * intros [-> | (e' & ? & ? & ? & ?)].
        -- exists e. rewrite Nat.sub_diag. auto.
        -- exists e'. rewrite Hhere by done. auto.
      * intros (e' & Hle & Hl & Hpe).
        destruct (decide (i = n)) as [-> | Hne]; [by left|].
        right. exists e'. rewrite Hhere in Hl by done. auto.
    + rewrite Hstep. split.
      * intros (e' & ? & ? & ? & ?). exists e'. rewrite Hhere by done. auto.
      * intros (e' & Hle & Hl & Hpe).
        destruct (decide (i = n)) as [-> | Hne].
        -- rewrite Nat.sub_diag in Hl. simpl in Hl. congruence.
        -- exists e'. rewrite Hhere in Hl by done. auto.
Qed.

Lemma select_spec p doc i :
  i ∈ select p doc ↔ ∃ e, doc !! i = Some e ∧ p e = true.
Proof.
  unfold select. rewrite select_from_spec. rewrite Nat.sub_0_r.
  split; [intros (e & _ & ?); eauto | intros (e & ?); exists e; split; [lia | done]].
Qed.

Lemma select_from_NoDup p doc n : NoDup (select_from p n doc).
Proof.
  revert n. induction doc as [|e doc IH]; intros n; simpl; [constructor|].
  destruct (p e); [|apply IH].
  constructor; [|apply IH].
  rewrite select_from_spec. intros (? & ? & _). lia.
Qed.

Lemma select_NoDup p doc : NoDup (select p doc).
Proof. apply select_from_NoDup. Qed.

(** An element outside the selection is never touched. *)
Lemma for_each_frame body sel doc j :
  j ∉ sel → (for_each body sel doc).1 !! j = doc !! j.
Proof.
  revert doc. induction sel as [|i sel IH]; intros doc Hj; simpl; [done|].
  apply not_elem_of_cons in Hj as [Hne Hj].
  destruct (doc !! i) as [e|] eqn:Hi; [|by apply IH].
  destruct (body (attrs e)) as [st [[]|ex]]; simpl.
  - rewrite IH by done. by rewrite list_lookup_insert_ne.
  - by rewrite list_lookup_insert_ne.
Qed.

(** A loop that ends normally has run its body, without an exception,
    on every selected element. *)
Lemma for_each_ok body sel doc doc' i e :
  NoDup sel → for_each body sel doc = (doc', Ok tt) →
  i ∈ sel → doc !! i = Some e →
  (body (attrs e)).2 = Ok tt ∧
  doc' !! i = Some (Element (tag e) (body (attrs e)).1).
Proof.
  revert doc. induction sel as [|i0 sel IH]; intros doc Hnd Hrun Hin Hi;
    [by apply elem_of_nil in Hin|].
  apply NoDup_cons in Hnd as [Hfresh Hnd]. simpl in Hrun.
  apply elem_of_cons in Hin as [-> | Hin].
  - rewrite Hi in Hrun.
    destruct (body (attrs e)) as [st [[]|ex]] eqn:Hb; [|done]. simpl.
    split; [done|].
    pose proof (for_each_frame body sel (<[i0:=Element (tag e) st]> doc) i0 Hfresh)
      as Hfr.
    rewrite Hrun in Hfr. simpl in Hfr. rewrite Hfr.
    apply list_lookup_insert_eq. by eapply lookup_lt_Some.
  - assert (i ≠ i0) by (intros ->; done).
    destruct (doc !! i0) as [e0|] eqn:Hi0; [|by eapply IH].
    destruct (body (attrs e0)) as [st [[]|ex]]; [|done].
    eapply IH; [done | exact Hrun | done |].
    by rewrite list_lookup_insert_ne.
Qed.

(** A body that cannot fail on the selected elements makes the loop end
    normally. *)
Lemma for_each_total body sel doc :
  NoDup sel →
  (∀ i e, i ∈ sel → doc !! i = Some e → (body (attrs e)).2 = Ok tt) →
  (for_each body sel doc).2 = Ok tt.
Proof.
  revert doc. induction sel as [|i0 sel IH]; intros doc Hnd Hbody; [done|].
  apply NoDup_cons in Hnd as [Hfresh Hnd]. simpl.
  destruct (doc !! i0) as [e0|] eqn:Hi0.
  - assert (Hok : (body (attrs e0)).2 = Ok tt) by (apply (Hbody i0); [left | done]).
    destruct (body (attrs e0)) as [st r]. simpl in Hok. subst r.
    apply IH; [done|]. intros i e Hin Hi.
    assert (i ≠ i0) by (intros ->; done).
    rewrite list_lookup_insert_ne in Hi by done.
    apply (Hbody i); [by right | done].
  - apply IH; [done|]. intros i e Hin Hi. apply (Hbody i); [by right | done].
Qed.

(** A selected element on which the body fails makes the loop fail. *)
Lemma for_each_fails body sel doc i e :
  NoDup sel → i ∈ sel → doc !! i = Some e →
  is_ok (body (attrs e)).2 = false →
  is_ok (for_each body sel doc).2 = false.
Proof.
  intros Hnd Hin Hi Hbad.
  destruct (for_each body sel doc) as [doc' [[]|ex]] eqn:Hrun; [|done].
  destruct (for_each_ok _ _ _ _ _ _ Hnd Hrun Hin Hi) as [Hok _].
  by rewrite Hok in Hbad.
Qed.

End loops.

(** ** The bodies of the two link loops *)

Section link_bodies.
Import Assembler Links.

Implicit Types (st : gmap string attr_value) (refmap : gmap string link_state).

Lemma rewrite_fragment_run st s :
  st !! "href" = Some (AStr s) →
  rewrite_fragment st =
    (<["href" := AStr "#"]> (<["data-goto" := AStr (PyStr.tail s)]> st), Ok tt).
Proof.
  intros Hh. unfold rewrite_fragment, mbind, act_bind, getitem.
  by rewrite Hh.
Qed.

(** The branch on the mode, case by case. *)
Lemma href_all_present st refmap k ent :
  st !! "id" = Some (AStr k) → refmap !! k = Some ent →
  rewrite_dynamic_href "all" refmap st =
    (<["href" := AStr (match target ent with
                       | Some t => "#" +:+ t
                       | None => "#"
                       end)]> st, Ok tt).
Proof.
  intros Hid Hk.
  unfold rewrite_dynamic_href, mbind, act_bind, getitem, setitem, lift,
    dict_contains, dict_getitem, mret, act_ret; simpl.
  rewrite lookup_insert_ne, Hid by done. simpl.
  rewrite bool_decide_true by (rewrite Hk; eauto).
  rewrite Hk. destruct (target ent) as [t|]; [|done].
  rewrite lookup_insert_eq. simpl. by rewrite insert_insert_eq.
Qed.

Lemma href_all_absent st refmap k :
  st !! "id" = Some (AStr k) → refmap !! k = None →
  rewrite_dynamic_href "all" refmap st = (<["href" := AStr "#"]> st, Ok tt).
Proof.
  intros Hid Hk.
  unfold rewrite_dynamic_href, mbind, act_bind, getitem, setitem, lift,
    dict_contains, mret, act_ret; simpl.
  rewrite lookup_insert_ne, Hid by done. simpl.
  rewrite bool_decide_false; [done|]. rewrite Hk. by intros [? ?].
Qed.

Lemma href_other_present mode st refmap k ent :
  mode ≠ "all" → st !! "id" = Some (AStr k) → refmap !! k = Some ent →
  rewrite_dynamic_href mode refmap st =
    (<["data-goto" := of_target (target ent)]> (<["href" := AStr "#"]> st),
     Ok tt).
Proof.
  intros Hm Hid Hk.
  unfold rewrite_dynamic_href. rewrite bool_decide_false by done.
  unfold mbind, act_bind, getitem, setitem, lift, dict_getitem; simpl.
  rewrite lookup_insert_ne, Hid by done. simpl. by rewrite Hk.
Qed.

Lemma href_other_absent mode st refmap k :
  mode ≠ "all" → st !! "id" = Some (AStr k) → refmap !! k = None →
  rewrite_dynamic_href mode refmap st =
    (<["href" := AStr "#"]> st, Raise (KeyError k)).
Proof.
  intros Hm Hid Hk.
  unfold rewrite_dynamic_href. rewrite bool_decide_false by done.
  unfold mbind, act_bind, getitem, setitem, lift, dict_getitem; simpl.
  rewrite lookup_insert_ne, Hid by done. simpl. by rewrite Hk.
Qed.

(** The branch on the mode writes [href] and [data-goto] only. *)
Lemma href_step_frame mode refmap st a :
  a ≠ "href" → a ≠ "data-goto" →
  (rewrite_dynamic_href mode refmap st).1 !! a = st !! a.
Proof.
  intros Ha1 Ha2.
  unfold rewrite_dynamic_href, mbind, act_bind, getitem, setitem, lift,
    mret, act_ret.
  repeat (case_match; simplify_eq/=);
    rewrite ?lookup_insert_ne by done; done.
Qed.

(** The two deletions that close the body. *)
Lemma rewrite_dynamic_unfold mode refmap st :
  rewrite_dynamic mode refmap st =
    match rewrite_dynamic_href mode refmap st with
    | (st1, Ok _) =>
        match st1 !! "checked-link" with
        | Some _ =>
            match st1 !! "data-facets" with
            | Some _ =>
                (delete "data-facets" (delete "checked-link" st1), Ok tt)
            | None =>
                (delete "checked-link" st1, Raise (KeyError "data-facets"))
            end
        | None => (st1, Raise (KeyError "checked-link"))
        end
    | (st1, Raise e) => (st1, Raise e)
    end.
Proof.
  unfold rewrite_dynamic, mbind, act_bind, delitem.
  destruct (rewrite_dynamic_href mode refmap st) as [st1 [[]|e]]; [|done].
  destruct (st1 !! "checked-link"); [|done].
  rewrite lookup_delete_ne by done.
  by destruct (st1 !! "data-facets").
Qed.

(** The deletions leave every other attribute as the branch made it. *)
Lemma rewrite_dynamic_keeps mode refmap st a :
  a ≠ "checked-link" → a ≠ "data-facets" →
  (rewrite_dynamic mode refmap st).1 !! a =
  (rewrite_dynamic_href mode refmap st).1 !! a.
Proof.
  intros Ha1 Ha2. rewrite rewrite_dynamic_unfold.
  destruct (rewrite_dynamic_href mode refmap st) as [st1 [[]|e]]; [|done].
  repeat case_match; simpl; rewrite ?lookup_delete_ne by done; done.
Qed.

Lemma rewrite_dynamic_present mode refmap st k ent :
  st !! "id" = Some (AStr k) → refmap !! k = Some ent →
  let st' := (rewrite_dynamic mode refmap st).1 in
  (mode = "all" →
     st' !! "href" = Some (AStr (match target ent with
                                 | Some t => "#" +:+ t
                                 | None => "#"
                                 end)) ∧
     st' !! "data-goto" = st !! "data-goto") ∧
  (mode ≠ "all" →
     st' !! "href" = Some (AStr "#") ∧
     st' !! "data-goto" = Some (of_target (target ent))).
Proof.
  intros Hid Hk st'. subst st'. split.
  - intros ->. rewrite !rewrite_dynamic_keeps by done.
    rewrite (href_all_present _ _ _ _ Hid Hk). simpl.
    by rewrite lookup_insert_eq, lookup_insert_ne.
  - intros Hm. rewrite !rewrite_dynamic_keeps by done.
    rewrite (href_other_present _ _ _ _ _ Hm Hid Hk). simpl.
    by rewrite lookup_insert_ne, !lookup_insert_eq.
Qed.

End link_bodies.

(** ** The passes over the document *)

Section link_passes.
Import Assembler Links.

Implicit Types (refmap : gmap string link_state) (doc : document).

Lemma fragment_link_href e :
  is_fragment_link e = true →
  ∃ s, attrs e !! "href" = Some (AStr s).
Proof.
  unfold is_fragment_link. intros [_ H]%andb_prop.
  destruct (attrs e !! "href") as [[s| |]|]; try done. eauto.
Qed.

(** The fragment loop has no failing step. *)
Lemma fragment_pass_ok mode doc : (fragment_pass mode doc).2 = Ok tt.
Proof.
  unfold fragment_pass. case_bool_decide; [done|].
  apply for_each_total; [apply select_NoDup|].
  intros i e [e' [He' Hp]]%select_spec He. simplify_eq.
  destruct (fragment_link_href _ Hp) as [s Hs].
  by rewrite (rewrite_fragment_run _ _ Hs).
Qed.

(** What the fragment loop leaves at each position. *)
Lemma fragment_pass_at mode doc i e :
  doc !! i = Some e →
  (fragment_pass mode doc).1 !! i =
    Some (if bool_decide (mode = "all") then e
          else if is_fragment_link e
               then Element (tag e) (rewrite_fragment (attrs e)).1
               else e).
Proof.
  intros Hi. pose proof (fragment_pass_ok mode doc) as Hok.
  unfold fragment_pass in *. case_bool_decide; [done|].
  destruct (for_each rewrite_fragment (select is_fragment_link doc) doc)
    as [doc' r] eqn:Hrun.
  simpl in *. subst r.
  destruct (is_fragment_link e) eqn:Hp.
  - eapply for_each_ok; [apply select_NoDup | done | | done].
    apply select_spec. eauto.
  - pose proof (for_each_frame rewrite_fragment
                  (select is_fragment_link doc) doc i) as Hfr.
    rewrite Hrun in Hfr. simpl in Hfr. rewrite Hfr, Hi; [done|].
    intros [e' [He' Hp']]%select_spec. congruence.
Qed.

(** The fragment loop writes [href] and [data-goto] only. *)
Lemma fragment_pass_frame mode doc i e :
  doc !! i = Some e →
  ∃ e1, (fragment_pass mode doc).1 !! i = Some e1 ∧ tag e1 = tag e ∧
        ∀ a, a ≠ "href" → a ≠ "data-goto" → attrs e1 !! a = attrs e !! a.
Proof.
  intros Hi. rewrite (fragment_pass_at _ _ _ _ Hi).
  eexists; split; [done|].
  case_bool_decide; [done|].
  destruct (is_fragment_link e) eqn:Hp; [|done].
  destruct (fragment_link_href _ Hp) as [s Hs].
  rewrite (rewrite_fragment_run _ _ Hs). simpl. split; [done|].
  intros a ? ?. by rewrite !lookup_insert_ne.
Qed.

Lemma is_dynamic_link_ext e1 e :
  tag e1 = tag e → attrs e1 !! "class" = attrs e !! "class" →
  is_dynamic_link e1 = is_dynamic_link e.
Proof. unfold is_dynamic_link. by intros -> ->. Qed.

(** [resolve] is the dynamic loop run on what the fragment loop left. *)
Lemma resolve_unfold mode refmap doc :
  resolve mode refmap doc =
  dynamic_pass mode refmap (fragment_pass mode doc).1.
Proof.
  unfold resolve. pose proof (fragment_pass_ok mode doc) as Hok.
  destruct (fragment_pass mode doc) as [doc1 r]. simpl in *. by subst r.
Qed.

(** An element that is not a dynamic link leaves [resolve] as the fragment
    loop made it, exception or not. *)
Lemma resolve_static mode refmap doc i e :
  doc !! i = Some e → is_dynamic_link e = false →
  (resolve mode refmap doc).1 !! i = (fragment_pass mode doc).1 !! i.
Proof.
  intros Hi Hdyn. rewrite resolve_unfold. unfold dynamic_pass.
  apply for_each_frame. intros [e1 [He1 Hp]]%select_spec.
  destruct (fragment_pass_frame mode doc i e Hi) as (e1' & He1' & Htag & Hat).
  rewrite He1' in He1. injection He1 as <-.
  rewrite (is_dynamic_link_ext e1' e) in Hp; [congruence|done|].
  by apply Hat.
Qed.

(** A dynamic link of a document on which [resolve] ends normally went
    through the body of the dynamic loop. *)
Lemma resolve_dynamic mode refmap doc doc' i e :
  resolve mode refmap doc = (doc', Ok tt) →
  doc !! i = Some e → is_dynamic_link e = true →
  ∃ e1, (fragment_pass mode doc).1 !! i = Some e1 ∧
        (rewrite_dynamic mode refmap (attrs e1)).2 = Ok tt ∧
        doc' !! i =
          Some (Element (tag e1) (rewrite_dynamic mode refmap (attrs e1)).1).
Proof.
  intros Hrun Hi Hdyn. rewrite resolve_unfold in Hrun. unfold dynamic_pass in Hrun.
  destruct (fragment_pass_frame mode doc i e Hi) as (e1 & He1 & Htag & Hat).
  exists e1. split; [done|].
  eapply for_each_ok; [apply select_NoDup | exact Hrun | | done].
  apply select_spec. exists e1. split; [done|].
  rewrite (is_dynamic_link_ext e1 e); [done | done | by apply Hat].
Qed.

(** A dynamic link on which the body fails makes [resolve] fail. *)
Lemma resolve_fails mode refmap doc i e :
  doc !! i = Some e → is_dynamic_link e = true →
  (∀ e1, (fragment_pass mode doc).1 !! i = Some e1 →
         is_ok (rewrite_dynamic mode refmap (attrs e1)).2 = false) →
  is_ok (resolve mode refmap doc).2 = false.
Proof.
  intros Hi Hdyn Hbad.
  destruct (resolve mode refmap doc) as [doc' [[]|ex]] eqn:Hrun; [|done].
  destruct (resolve_dynamic _ _ _ _ _ _ Hrun Hi Hdyn) as (e1 & He1 & Hok & _).
  specialize (Hbad e1 He1). by rewrite Hok in Hbad.
Qed.

End link_passes.

(** ** Properties of the link rewrite *)

Section link_properties.
Import Assembler Links Samples.

Implicit Types (refmap : gmap string link_state) (doc : document).

(** A dynamic link whose anchor has no entry: inert in 'all' mode, a
    [KeyError] in the other modes. *)
Lemma rewrite_dynamic_absent mode refmap st k :
  st !! "id" = Some (AStr k) → refmap !! k = None →
  (mode = "all" →
     (rewrite_dynamic_href mode refmap st).2 = Ok tt ∧
     (rewrite_dynamic mode refmap st).1 !! "href" = Some (AStr "#") ∧
     (rewrite_dynamic mode refmap st).1 !! "data-goto" = st !! "data-goto") ∧
  (mode ≠ "all" →
     rewrite_dynamic mode refmap st =
       (<["href" := AStr "#"]> st, Raise (KeyError k))).
Proof.
  intros Hid Hk. split.
  - intros ->. rewrite !rewrite_dynamic_keeps by done.
    rewrite (href_all_absent _ _ _ Hid Hk). simpl.
    by rewrite lookup_insert_eq, lookup_insert_ne.
  - intros Hm. rewrite rewrite_dynamic_unfold.
    by rewrite (href_other_absent _ _ _ _ Hm Hid Hk).
Qed.

(** C1, at a failing input: in 'single' mode, a dynamic link whose anchor
    "a1" has no entry in an empty refMap does not come out inert; the pass
    stops with [KeyError "a1"], after [href] was set and before the two
    volatile attributes were removed. *)
Theorem dynamic_link_missing_entry_raises :
  (resolve "single" ∅ [a1_link]).2 = Raise (KeyError "a1") ∧
  (resolve "toggle" ∅ [a1_link]).2 = Raise (KeyError "a1") ∧
  (resolve "all" ∅ [a1_link]).2 = Ok tt.
Proof. by vm_compute. Qed.

(** C2: a dynamic link whose anchor has an entry in the refMap.  In 'all'
    mode [href] becomes "#" followed by the target, or "#" alone for a null
    target, and [data-goto] is not written; in the other modes [href]
    becomes "#" and [data-goto] the target, [None] for a null target.  This
    holds of the loop body on any attribute store, and of every such link
    of a document on which the whole pass ends normally. *)
Theorem dynamic_link_present_rewrite mode refmap k ent :
  refmap !! k = Some ent →
  (∀ st, st !! "id" = Some (AStr k) →
     let st' := (rewrite_dynamic mode refmap st).1 in
     (mode = "all" →
        st' !! "href" = Some (AStr (match target ent with
                                    | Some t => "#" +:+ t
                                    | None => "#"
                                    end)) ∧
        st' !! "data-goto" = st !! "data-goto") ∧
     (mode ≠ "all" →
        st' !! "href" = Some (AStr "#") ∧
        st' !! "data-goto" = Some (of_target (target ent)))) ∧
  (∀ doc doc' i e,
     resolve mode refmap doc = (doc', Ok tt) →
     doc !! i = Some e → is_dynamic_link e = true →
     attrs e !! "id" = Some (AStr k) →
     ∃ e', doc' !! i = Some e' ∧
       (mode = "all" →
          attrs e' !! "href" = Some (AStr (match target ent with
                                           | Some t => "#" +:+ t
                                           | None => "#"
                                           end)) ∧
          attrs e' !! "data-goto" = attrs e !! "data-goto") ∧
       (mode ≠ "all" →
          attrs e' !! "href" = Some (AStr "#") ∧
          attrs e' !! "data-goto" = Some (of_target (target ent)))).
Proof.
  intros Hk. split.
  - intros st Hid. exact (rewrite_dynamic_present mode refmap st k ent Hid Hk).
  - intros doc doc' i e Hrun Hi Hdyn Hid.
    destruct (resolve_dynamic _ _ _ _ _ _ Hrun Hi Hdyn) as (e1 & He1 & _ & He').
    destruct (fragment_pass_frame mode doc i e Hi) as (e1' & He1' & _ & Hat).
    rewrite He1' in He1. injection He1 as ->.
    assert (Hid1 : attrs e1 !! "id" = Some (AStr k)) by (by rewrite Hat).
    destruct (rewrite_dynamic_present mode refmap (attrs e1) k ent Hid1 Hk)
      as [Hall Hother].
    eexists. split; [exact He'|]. simpl. split.
    + intros ->. destruct (Hall eq_refl) as [-> ->]. split; [done|].
      rewrite (fragment_pass_at _ _ _ _ Hi) in He1'. simpl in He1'. congruence.
    + intros Hm. by apply Hother.
Qed.

Lemma dynamic_link_present_rewrite_witness :
  (rewrite_dynamic "toggle" {["a1" := LinkState (Some "topicX")]}
     (attrs a1_link)).1 !! "data-goto" = Some (AStr "topicX").
Proof.
  refine (proj2 (proj2 (proj1
    (dynamic_link_present_rewrite "toggle"
       {["a1" := LinkState (Some "topicX")]} "a1" (LinkState (Some "topicX"))
       _) (attrs a1_link) _) _)).
  - reflexivity.
  - reflexivity.
  - discriminate.
Defined.

(** C3: a fragment link, an [a] whose [href] begins with "#".  Outside 'all'
    mode the fragment loop ends normally and leaves the link with [href]
    "#" and [data-goto] the fragment identifier without its "#", and that
    is how the link leaves the whole pass unless it is also a dynamic
    link; in 'all' mode the fragment loop changes nothing in the document,
    and the link leaves the whole pass as it entered it unless it is also a
    dynamic link. *)
Theorem fragment_link_rewrite mode refmap doc i e frag :
  doc !! i = Some e → tag e = "a" →
  attrs e !! "href" = Some (AStr (String "#" frag)) →
  (mode ≠ "all" →
     let e' := Element "a" (<["href" := AStr "#"]>
                              (<["data-goto" := AStr frag]> (attrs e))) in
     (fragment_pass mode doc).2 = Ok tt ∧
     (fragment_pass mode doc).1 !! i = Some e' ∧
     (is_dynamic_link e = false →
        (resolve mode refmap doc).1 !! i = Some e')) ∧
  (mode = "all" →
     fragment_pass mode doc = (doc, Ok tt) ∧
     (is_dynamic_link e = false →
        (resolve mode refmap doc).1 !! i = Some e)).
Proof.
  intros Hi Htag Hhref.
  assert (Hfrag : is_fragment_link e = true).
  { unfold is_fragment_link. rewrite Htag, Hhref. by destruct frag. }
  split.
  - intros Hm e'.
    assert (Hat : (fragment_pass mode doc).1 !! i = Some e').
    { rewrite (fragment_pass_at _ _ _ _ Hi).
      rewrite bool_decide_false by done. rewrite Hfrag.
      rewrite (rewrite_fragment_run _ _ Hhref). simpl. by rewrite Htag. }
    split; [apply fragment_pass_ok|]. split; [done|].
    intros Hdyn. by rewrite (resolve_static _ _ _ _ _ Hi Hdyn).
  - intros ->. split; [done|].
    intros Hdyn. rewrite (resolve_static _ _ _ _ _ Hi Hdyn).
    by rewrite (fragment_pass_at _ _ _ _ Hi).
Qed.

Lemma fragment_link_rewrite_witness :
  (resolve "single" ∅ [fig1_link]).1 !! 0 =
    Some (Element "a" (<["href" := AStr "#"]>
                         (<["data-goto" := AStr "fig1"]> (attrs fig1_link)))) ∧
  (resolve "all" ∅ [fig1_link]).1 !! 0 = Some fig1_link.
Proof.
  pose proof (fragment_link_rewrite "single" ∅ [fig1_link] 0 fig1_link "fig1"
                eq_refl eq_refl eq_refl) as [Hsingle _].
  pose proof (fragment_link_rewrite "all" ∅ [fig1_link] 0 fig1_link "fig1"
                eq_refl eq_refl eq_refl) as [_ Hall].
  split.
  - apply Hsingle; [discriminate | reflexivity].
  - apply Hall; reflexivity.
Defined.

(** C10: the dynamic-link loop needs both [checked-link] and [data-facets]
    on every dynamic link, in every mode.  A body that ends normally found
    both and removed both; on a link that lacks either, the body fails, with
    the [KeyError] of the first missing one of the two when the branch on
    the mode went through, and the whole pass over a document that holds
    such a link fails. *)
Theorem dynamic_link_needs_volatile_attributes mode refmap doc i e :
  doc !! i = Some e → is_dynamic_link e = true →
  attrs e !! "checked-link" = None ∨ attrs e !! "data-facets" = None →
  is_ok (rewrite_dynamic mode refmap (attrs e)).2 = false ∧
  (∀ st1, rewrite_dynamic_href mode refmap (attrs e) = (st1, Ok tt) →
     (rewrite_dynamic mode refmap (attrs e)).2 =
       Raise (KeyError (match attrs e !! "checked-link" with
                        | Some _ => "data-facets"
                        | None => "checked-link"
                        end))) ∧
  is_ok (resolve mode refmap doc).2 = false ∧
  (∀ st st', rewrite_dynamic mode refmap st = (st', Ok tt) →
     is_Some (st !! "checked-link") ∧ is_Some (st !! "data-facets") ∧
     st' !! "checked-link" = None ∧ st' !! "data-facets" = None).
Proof.
  intros Hi Hdyn Hmiss.
  assert (Hbody : ∀ st,
    st !! "checked-link" = None ∨ st !! "data-facets" = None →
    is_ok (rewrite_dynamic mode refmap st).2 = false).
  { intros st Hst. rewrite rewrite_dynamic_unfold.
    pose proof (href_step_frame mode refmap st "checked-link") as H1.
    pose proof (href_step_frame mode refmap st "data-facets") as H2.
    destruct (rewrite_dynamic_href mode refmap st) as [st1 [[]|ex]]; [|done].
    simpl in H1, H2. rewrite H1, H2 by done.
    destruct Hst as [-> | ->]; [done|]. by destruct (st !! "checked-link"). }
  split; [by apply Hbody|]. split; [|split].
  - intros st1 Hhref. rewrite rewrite_dynamic_unfold.
    pose proof (href_step_frame mode refmap (attrs e) "checked-link") as H1.
    pose proof (href_step_frame mode refmap (attrs e) "data-facets") as H2.
    rewrite Hhref in *. simpl in H1, H2. rewrite H1, H2 by done.
    destruct (attrs e !! "checked-link"); [|done].
    destruct Hmiss as [? | ->]; done.
  - eapply resolve_fails; [done | done |].
    intros e1 He1. apply Hbody.
    destruct (fragment_pass_frame mode doc i e Hi) as (e1' & He1' & _ & Hat).
    rewrite He1' in He1. injection He1 as ->.
    by rewrite !Hat.
  - intros st st' Hrun. rewrite rewrite_dynamic_unfold in Hrun.
    pose proof (href_step_frame mode refmap st "checked-link") as H1.
    pose proof (href_step_frame mode refmap st "data-facets") as H2.
    destruct (rewrite_dynamic_href mode refmap st) as [st1 [[]|ex]]; [|done].
    simpl in H1, H2. rewrite <- H1, <- H2 by done.
    destruct (st1 !! "checked-link") eqn:Hc; [|done].
    destruct (st1 !! "data-facets") eqn:Hf; [|done].
    injection Hrun as <-. repeat split; eauto.
    + rewrite lookup_delete_ne by done. apply lookup_delete_eq.
    + apply lookup_delete_eq.
Qed.

Lemma dynamic_link_needs_volatile_attributes_witness :
  (rewrite_dynamic "all" ∅ (attrs unflagged_link)).2 =
    Raise (KeyError "data-facets") ∧
  is_ok (resolve "all" ∅ [unflagged_link]).2 = false.
Proof.
  pose proof (dynamic_link_needs_volatile_attributes "all" ∅
                [unflagged_link] 0 unflagged_link eq_refl eq_refl
                (or_intror eq_refl)) as (_ & Hkey & Hdoc & _).
  split; [|exact Hdoc].
  eapply Hkey. reflexivity.
Defined.

End link_properties.

(** ** The assembly *)

Section assembly.
Import Template Assembler.

Variable fetch : string → response.
Variable tpl : templates.
Variable toc_position : string.

Implicit Types (t c : topic) (cs ts : list topic)
  (h : gmap string link_state) (ms : list (gmap string link_state)).

(** Induction on a tree, with the property at hand for every child. *)
Lemma topic_rect_children (P : topic → Prop) :
  (∀ id lab link cs, Forall P cs → P (Topic id lab link cs)) →
  ∀ t, P t.
Proof.
  intros Hnode. fix IH 1. intros [id lab link cs]. apply Hnode.
  induction cs as [|c cs IHcs]; constructor; [apply IH | exact IHcs].
Qed.

(** *** The accumulation loop *)

Lemma merge_loop_app {A} (f : A → result rendered) xs ys acc :
  merge_loop f (xs ++ ys) acc =
    match merge_loop f xs acc with
    | Ok acc' => merge_loop f ys acc'
    | Raise e => Raise e
    end.
Proof.
  revert acc. induction xs as [|x xs IH]; intros acc; simpl; [done|].
  destruct (f x) as [[[b t] h]|e]; [|done].
  destruct acc as [[b0 t0] h0]. apply IH.
Qed.

Lemma merge_loop_is_ok {A} (f : A → result rendered) xs acc :
  is_ok (merge_loop f xs acc) = forallb (λ x, is_ok (f x)) xs.
Proof.
  revert acc. induction xs as [|x xs IH]; intros acc; simpl; [done|].
  destruct (f x) as [[[b t] h]|e]; [|done].
  destruct acc as [[b0 t0] h0]. apply IH.
Qed.

Lemma updates_app h ms1 ms2 :
  updates h (ms1 ++ ms2) = updates (updates h ms1) ms2.
Proof. apply foldl_app. Qed.

Lemma updates_union h ms : updates h ms = updates ∅ ms ∪ h.
Proof.
  revert h. induction ms as [|m ms IH]; intros h; simpl.
  - by rewrite (left_id_L ∅ (∪)).
  - rewrite IH, (IH (update ∅ m)). unfold update.
    by rewrite (right_id_L ∅ (∪)), (assoc_L (∪)).
Qed.

(** The reference map a loop accumulates, from the maps its body gives. *)
Lemma merge_loop_href {A} (f : A → result rendered) (g : A → list _) xs acc r :
  (∀ x r', x ∈ xs → f x = Ok r' → r'.2 = updates ∅ (g x)) →
  merge_loop f xs acc = Ok r →
  r.2 = updates acc.2 (concat (map g xs)).
Proof.
  revert acc. induction xs as [|x xs IH]; intros acc Hf Hrun; simpl in *.
  - by injection Hrun as <-.
  - destruct (f x) as [[[b t] h]|e] eqn:Hx; [|done].
    destruct acc as [[b0 t0] h0].
    rewrite (IH _ (λ y r' Hy, Hf y r' (list_elem_of_further _ _ _ Hy)) Hrun).
    simpl. rewrite updates_app. f_equal.
    rewrite (updates_union h0 (g x)).
    specialize (Hf x _ (list_elem_of_here _ _) Hx). simpl in Hf. by subst h.
Qed.

Lemma updates_reverse h ms : updates h ms = ⋃ (reverse ms) ∪ h.
Proof.
  revert h. induction ms as [|m ms IH]; intros h; simpl.
  - by rewrite (left_id_L ∅ (∪)).
  - rewrite IH. unfold update. rewrite reverse_cons.
    assert (Happ : ∀ ms1 ms2 : list (gmap string link_state),
              ⋃ (ms1 ++ ms2) = ⋃ ms1 ∪ ⋃ ms2).
    { intros ms1 ms2. induction ms1 as [|m1 ms1 IH1]; simpl.
      - by rewrite (left_id_L ∅ (∪)).
      - by rewrite IH1, (assoc_L (∪)). }
    rewrite Happ. simpl.
    by rewrite (right_id_L ∅ (∪)), (assoc_L (∪)).
Qed.

(** For maps with pairwise disjoint keys the order of the updates does not
    matter: the result is their union. *)
Lemma updates_disjoint ms :
  map_disjoint_list ms → updates ∅ ms = ⋃ ms.
Proof.
  intros Hdisj. rewrite updates_reverse, (right_id_L ∅ (∪)).
  apply map_union_list_Permutation.
  - apply reverse_Permutation.
  - eapply map_disjoint_list_Permutation; [done|].
    symmetry. apply reverse_Permutation.
Qed.

Lemma size_union_list ms :
  map_disjoint_list ms → size (⋃ ms) = sum_list (size <$> ms).
Proof.
  induction ms as [|m ms IH]; simpl; [by rewrite map_size_empty|].
  intros [Hm Hms]%map_disjoint_list_cons.
  rewrite map_size_disj_union by (by apply map_disjoint_union_list_r).
  by rewrite IH.
Qed.

(** *** [build_dom] *)

Lemma leaf_content_href crash link content h :
  leaf_content fetch crash link = Ok (content, h) →
  h = leaf_map fetch link.
Proof.
  unfold leaf_content, leaf_map. case_bool_decide; [congruence|].
  destruct (fetch link) as [body ls|status|e]; [| |done].
  - destruct (unwrap body); congruence.
  - destruct crash; congruence.
Qed.

(** The reference map of a rendered unit is made of the successive updates
    by the fetched maps of its leaves, in tree order. *)
Lemma build_dom_href crash t : ∀ level r,
  build_dom fetch tpl crash toc_position t level = Ok r →
  r.2 = updates ∅ (leaf_maps fetch t).
Proof.
  induction t as [id lab link cs IH] using topic_rect_children.
  intros level r Hrun. destruct cs as [|c cs].
  - simpl in Hrun.
    destruct (leaf_content fetch crash link) as [[content h]|e] eqn:Hleaf;
      [|done].
    injection Hrun as <-. simpl.
    rewrite (leaf_content_href _ _ _ _ Hleaf). unfold update.
    by rewrite (right_id_L ∅ (∪)).
  - cbn [build_dom] in Hrun.
    destruct (merge_loop _ (c :: cs) _) as [[[b tc] h]|e] eqn:Hloop; [|done].
    injection Hrun as <-.
    eapply (merge_loop_href _ (leaf_maps fetch)) in Hloop; [exact Hloop|].
    intros x r' Hx Hfx. rewrite Forall_forall in IH. by eapply IH.
Qed.

Lemma assemble_href crash ts r :
  assemble fetch tpl crash toc_position ts = Ok r →
  r.2 = updates ∅ (forest_leaf_maps fetch ts).
Proof.
  intros Hrun. unfold assemble in Hrun.
  eapply (merge_loop_href _ (leaf_maps fetch)) in Hrun; [exact Hrun|].
  intros x r' _ Hfx. by eapply build_dom_href.
Qed.

End assembly.

(** ** Properties of the assembly *)

Section assembly_properties.
Import Template Assembler.

Variable fetch : string → response.
Variable tpl : templates.
Variable toc_position : string.

(** C4: when the fetched reference maps of the leaves have pairwise
    disjoint keys, the refMap of the assembled guide is their union: an
    entry is in it exactly when it is in the map of some leaf, and it has as
    many entries as the leaves' maps have together.  The same holds of the
    rendered unit of every node. *)
Theorem refmap_union_of_leaf_maps crash ts body toc refmap :
  assemble fetch tpl crash toc_position ts = Ok (body, toc, refmap) →
  map_disjoint_list (forest_leaf_maps fetch ts) →
  refmap = ⋃ forest_leaf_maps fetch ts ∧
  (∀ k v, refmap !! k = Some v ↔
          ∃ m, m ∈ forest_leaf_maps fetch ts ∧ m !! k = Some v) ∧
  size refmap = sum_list (size <$> forest_leaf_maps fetch ts) ∧
  (∀ t level r,
     build_dom fetch tpl crash toc_position t level = Ok r →
     map_disjoint_list (leaf_maps fetch t) →
     r.2 = ⋃ leaf_maps fetch t).
Proof.
  intros Hrun Hdisj.
  assert (Heq : refmap = ⋃ forest_leaf_maps fetch ts).
  { apply assemble_href in Hrun. simpl in Hrun. subst refmap.
    by apply updates_disjoint. }
  split; [done|]. split; [|split].
  - intros k v. rewrite Heq. by apply lookup_union_list_Some.
  - rewrite Heq. by apply size_union_list.
  - intros t level r Ht Hd. rewrite (build_dom_href _ _ _ _ _ _ _ Ht).
    by apply updates_disjoint.
Qed.

(** C5: a leaf whose fetch fails with an HTTP error.  Under the tolerant
    policy its rendered unit is made as usual from the placeholder body and
    an empty reference map, and a loop over siblings that holds it ends
    normally as soon as every other sibling assembles; under the fatal
    policy the leaf, every tree that holds it and every guide that holds
    such a tree abort. *)
Theorem fetch_failure_policy id lab link status :
  link ≠ EmptyString → fetch link = HTTPError status →
  let leaf := Topic id lab link [] in
  let repl := [("TOPIC_ID", id); ("TOPIC_LINK", link);
               ("TOPIC_TITLE", lab); ("TOPIC_CONTENT", "<div></div>")] in
  (∀ level,
     build_dom fetch tpl false toc_position leaf level =
       Ok (replace_in_template (topic_wo_children tpl) repl,
           replace_in_template (toc_wo_children tpl) repl, ∅)) ∧
  (∀ pre post,
     Forall (λ c, is_ok (build_dom fetch tpl false toc_position c 0) = true)
            (pre ++ post) →
     is_ok (assemble fetch tpl false toc_position (pre ++ leaf :: post))
       = true) ∧
  (∀ id' lab' link' pre post level,
     Forall (λ c, is_ok (build_dom fetch tpl false toc_position c (S level))
                  = true) (pre ++ post) →
     is_ok (build_dom fetch tpl false toc_position
              (Topic id' lab' link' (pre ++ leaf :: post)) level) = true) ∧
  (∀ level,
     build_dom fetch tpl true toc_position leaf level = Raise (SystemExit 1)) ∧
  (∀ T level, subtopic leaf T →
     is_ok (build_dom fetch tpl true toc_position T level) = false) ∧
  (∀ ts T, T ∈ ts → subtopic leaf T →
     is_ok (assemble fetch tpl true toc_position ts) = false).
Proof.
  intros Hlink Hfetch leaf repl.
  assert (Hleaf : ∀ crash, leaf_content fetch crash link =
            if crash then Raise (SystemExit 1) else Ok ("<div></div>", ∅)).
  { intros crash. unfold leaf_content.
    rewrite bool_decide_false by done. by rewrite Hfetch. }
  assert (Htol : ∀ level,
     build_dom fetch tpl false toc_position leaf level =
       Ok (replace_in_template (topic_wo_children tpl) repl,
           replace_in_template (toc_wo_children tpl) repl, ∅)).
  { intros level. simpl. by rewrite Hleaf. }
  assert (Hfatal : ∀ level,
     build_dom fetch tpl true toc_position leaf level = Raise (SystemExit 1)).
  { intros level. simpl. by rewrite Hleaf. }
  assert (Hloop : ∀ level pre post,
     Forall (λ c, is_ok (build_dom fetch tpl false toc_position c level) = true)
            (pre ++ post) →
     forallb (λ c, is_ok (build_dom fetch tpl false toc_position c level))
             (pre ++ leaf :: post) = true).
  { intros level pre post [Hpre Hpost]%Forall_app.
    rewrite forallb_app. cbn [forallb]. rewrite Htol. cbn [is_ok andb].
    apply andb_true_intro. split; apply forallb_forall; intros c Hc.
    - rewrite Forall_forall in Hpre. apply Hpre. by apply list_elem_of_In.
    - rewrite Forall_forall in Hpost. apply Hpost. by apply list_elem_of_In. }
  assert (Hsub : ∀ T, subtopic leaf T → ∀ level,
     is_ok (build_dom fetch tpl true toc_position T level) = false).
  { induction 1 as [|id' lab' link' cs c Hc Hsub IH]; intros level.
    - by rewrite Hfatal.
    - destruct cs as [|c0 cs]; [by apply elem_of_nil in Hc|].
      cbn [build_dom].
      destruct (merge_loop _ (c0 :: cs) _) as [[[b tc] h]|e] eqn:Hrun; [|done].
      pose proof (merge_loop_is_ok
        (λ c, build_dom fetch tpl true toc_position c (S level))
        (c0 :: cs) (EmptyString, EmptyString, ∅)) as Hok.
      rewrite Hrun in Hok. simpl in Hok. symmetry in Hok.
      change (forallb (λ c, is_ok (build_dom fetch tpl true toc_position c (S level)))
                      (c0 :: cs) = true) in Hok.
      rewrite forallb_forall in Hok.
      specialize (Hok c). rewrite IH in Hok.
      discriminate Hok. by apply list_elem_of_In. }
  repeat split.
  - exact Htol.
  - intros pre post Hsib. unfold assemble. rewrite merge_loop_is_ok.
    by apply Hloop.
  - intros id' lab' link' pre post level Hsib.
    destruct (pre ++ leaf :: post) as [|c0 cs] eqn:Hcs.
    { by destruct pre. }
    cbn [build_dom].
    pose proof (merge_loop_is_ok
      (λ c, build_dom fetch tpl false toc_position c (S level))
      (c0 :: cs) (EmptyString, EmptyString, ∅)) as Hok.
    rewrite <- Hcs, Hloop in Hok by done.
    rewrite Hcs in Hok.
    by destruct (merge_loop _ (c0 :: cs) _) as [[[b tc] h]|e].
  - exact Hfatal.
  - intros T level HT. by apply Hsub.
  - intros ts T HT Hsubt. unfold assemble. rewrite merge_loop_is_ok.
    apply not_true_is_false. rewrite forallb_forall. intros Hall.
    specialize (Hall T). rewrite Hsub in Hall by done.
    discriminate Hall. by apply list_elem_of_In.
Qed.

(** C9: the unwrap step is partial.  A fetched body that holds "</html>"
    and does not begin with "<html" makes [re.match] give [None], and the
    assembly of the leaf raises [AttributeError] under either policy, though
    the fetch succeeded. *)
Theorem unwrap_not_total content :
  PyStr.contains "</html>" content = true →
  PyStr.startswith "<html" content = false →
  unwrap content = Raise AttributeError ∧
  (∀ crash id lab link ls level,
     link ≠ EmptyString → fetch link = Fetched content ls →
     build_dom fetch tpl crash toc_position (Topic id lab link []) level
       = Raise AttributeError).
Proof.
  intros Hin Hstart.
  assert (Hun : unwrap content = Raise AttributeError).
  { unfold unwrap, match_html. rewrite Hin.
    unfold PyStr.startswith in Hstart. by rewrite Hstart. }
  split; [done|].
  intros crash id lab link ls level Hlink Hfetch. simpl.
  unfold leaf_content. rewrite bool_decide_false by done.
  by rewrite Hfetch, Hun.
Qed.

End assembly_properties.

Section assembly_witnesses.
Import Template Assembler Samples.

Lemma refmap_union_of_leaf_maps_witness :
  ∃ body toc refmap,
    assemble sample_fetch sample_templates false "sidebar" sample_guide
      = Ok (body, toc, refmap) ∧
    refmap = ⋃ forest_leaf_maps sample_fetch sample_guide ∧
    size refmap = 2.
Proof.
  destruct (assemble sample_fetch sample_templates false "sidebar" sample_guide)
    as [[[body toc] refmap]|e] eqn:Hrun; [|by vm_compute in Hrun].
  exists body, toc, refmap. split; [done|].
  assert (Hdisj : map_disjoint_list (forest_leaf_maps sample_fetch sample_guide)).
  { assert (Hms : forest_leaf_maps sample_fetch sample_guide =
              [{["a1" := LinkState (Some "k2")]}; ∅;
               {["a2" := LinkState None]}]) by reflexivity.
    rewrite Hms. apply map_disjoint_list_cons_2.
    - apply Forall_cons. split; [apply map_disjoint_empty_l|].
      apply Forall_cons. split; [|by apply Forall_nil].
      by apply map_disjoint_singleton_l, lookup_singleton_ne.
    - apply map_disjoint_list_cons_2.
      + apply Forall_cons. split; [apply map_disjoint_empty_r|by apply Forall_nil].
      + apply map_disjoint_list_cons_2; [by apply Forall_nil|].
        apply map_disjoint_list_nil. }
  destruct (refmap_union_of_leaf_maps sample_fetch sample_templates "sidebar"
              false sample_guide body toc refmap Hrun Hdisj)
    as (Heq & _ & Hsize & _).
  split; [exact Heq|]. rewrite Hsize. reflexivity.
Defined.

Lemma fetch_failure_policy_witness :
  is_ok (build_dom sample_fetch sample_templates false "sidebar"
           (Topic "n0" "Chapter" EmptyString
              [Topic "n1" "One" "k1" []; missing_leaf]) 0) = true ∧
  is_ok (assemble sample_fetch sample_templates true "sidebar" sample_guide)
    = false.
Proof.
  destruct (fetch_failure_policy sample_fetch sample_templates "sidebar"
              "n3" "Three" "k3" 404) as (_ & _ & Hnode & _ & _ & Hfatal);
    [discriminate | reflexivity |].
  split.
  - refine (Hnode "n0" "Chapter" EmptyString [Topic "n1" "One" "k1" []] [] 0 _).
    apply Forall_cons. split; [reflexivity | by apply Forall_nil].
  - apply (Hfatal sample_guide
             (Topic "n0" "Chapter" EmptyString
                [Topic "n1" "One" "k1" []; missing_leaf])).
    + left.
    + eapply subtopic_child; [|apply subtopic_here].
      right. left.
Defined.

Lemma unwrap_not_total_witness :
  build_dom sample_fetch sample_templates false "sidebar"
    (Topic "n4" "Four" "k4" []) 0 = Raise AttributeError.
Proof.
  refine (proj2 (unwrap_not_total sample_fetch sample_templates "sidebar"
                   "<!DOCTYPE html><html><p>four</p></html>" _ _)
            false "n4" "Four" "k4" ∅ 0 _ _).
  - reflexivity.
  - reflexivity.
  - discriminate.
  - reflexivity.
Defined.

End assembly_witnesses.

(** ** Cutting a string at the last occurrence of a character *)

Section cut_last.

Lemma string_app_cons a (s t : string) :
  String a s +:+ t = String a (s +:+ t).
Proof. reflexivity. Qed.

Lemma string_app_nil_l (t : string) : EmptyString +:+ t = t.
Proof. reflexivity. Qed.

Lemma string_app_nil_r (s : string) : s +:+ EmptyString = s.
Proof.
  induction s as [|a s IH]; [done|]. by rewrite string_app_cons, IH.
Qed.

Lemma string_app_assoc (s1 s2 s3 : string) :
  (s1 +:+ s2) +:+ s3 = s1 +:+ s2 +:+ s3.
Proof.
  induction s1 as [|a s1 IH]; [done|]. by rewrite !string_app_cons, IH.
Qed.

Lemma prefix_char c a s :
  String.prefix (String c EmptyString) (String a s) = bool_decide (a = c).
Proof.
  cbn. destruct (ascii_dec c a) as [->|Hne].
  - rewrite bool_decide_true by done. by destruct s.
  - by rewrite bool_decide_false by congruence.
Qed.

Lemma contains_char c s :
  PyStr.contains (String c EmptyString) s = PyStr.has_char c s.
Proof.
  induction s as [|a s IH]; [done|].
  cbn [PyStr.contains PyStr.has_char]. by rewrite prefix_char, IH.
Qed.

Lemma before_last_char_None c s :
  PyStr.before_last (String c EmptyString) s = None ↔
  PyStr.has_char c s = false.
Proof.
  induction s as [|a s IH]; [done|].
  cbn [PyStr.before_last PyStr.has_char]. rewrite prefix_char.
  destruct (PyStr.before_last (String c EmptyString) s) as [h|].
  - split; [done|]. intros [_ H]%orb_false_elim. apply IH in H. done.
  - rewrite (proj1 IH eq_refl), orb_false_r.
    by case_bool_decide.
Qed.

Lemma before_last_char_Some c s h :
  PyStr.before_last (String c EmptyString) s = Some h →
  ∃ t, s = h +:+ String c t ∧ PyStr.has_char c t = false.
Proof.
  revert h. induction s as [|a s IH]; intros h; [done|].
  cbn [PyStr.before_last]. rewrite prefix_char.
  destruct (PyStr.before_last (String c EmptyString) s) as [h'|] eqn:Hs.
  - intros [= <-]. destruct (IH h' eq_refl) as (t & -> & Ht).
    exists t. by split.
  - case_bool_decide as Hac; [|done]. intros [= <-]. subst a.
    exists s. split; [done|]. by apply before_last_char_None.
Qed.

(** [rsplit(c, maxsplit=1)[0]]: either [c] does not occur and the string is
    kept, or the string is cut where [c] occurs last. *)
Lemma rsplit1_head_char c s :
  (PyStr.has_char c s = false ∧
   PyStr.rsplit1_head (String c EmptyString) s = s) ∨
  (∃ t, s = PyStr.rsplit1_head (String c EmptyString) s +:+ String c t ∧
        PyStr.has_char c t = false).
Proof.
  unfold PyStr.rsplit1_head.
  destruct (PyStr.before_last (String c EmptyString) s) as [h|] eqn:Hs.
  - right. by apply before_last_char_Some.
  - left. split; [by apply before_last_char_None | done].
Qed.

End cut_last.

(** ** The manifest of CSS resources *)

Section css_scan.
Import Manifest.

Implicit Types (d res : list (string * string)) (refs : list string).

Lemma dict_get_set k k' v d :
  dict_get k (dict_set k' v d) =
    if bool_decide (k' = k) then Some v else dict_get k d.
Proof.
  induction d as [|[k0 v0] d IH]; simpl.
  - by case_bool_decide.
  - destruct (bool_decide (k0 = k')) eqn:H0; simpl.
    + apply bool_decide_eq_true in H0 as ->.
      by destruct (bool_decide (k' = k)).
    + apply bool_decide_eq_false in H0.
      destruct (bool_decide (k0 = k)) eqn:H1.
      * apply bool_decide_eq_true in H1 as ->.
        by rewrite bool_decide_false by congruence.
      * done.
Qed.

Lemma dict_set_keys k v d :
  NoDup d.*1 → NoDup (dict_set k v d).*1 ∧
  ∀ k', k' ∈ (dict_set k v d).*1 ↔ k' = k ∨ k' ∈ d.*1.
Proof.
  induction d as [|[k0 v0] d IH]; simpl.
  - intros _. split; [apply NoDup_singleton|].
    intros k'. rewrite list_elem_of_singleton. set_solver.
  - intros [Hk0 Hd]%NoDup_cons. destruct (IH Hd) as [IHnd IHin].
    case_bool_decide as Hk; simpl.
    + subst k0. split; [by apply NoDup_cons|].
      intros k'. rewrite elem_of_cons. naive_solver.
    + split.
      * apply NoDup_cons. split; [|done]. rewrite IHin. naive_solver.
      * intros k'. rewrite !elem_of_cons, IHin. naive_solver.
Qed.

Lemma dict_get_elem k v d :
  NoDup d.*1 → (k, v) ∈ d ↔ dict_get k d = Some v.
Proof.
  induction d as [|[k0 v0] d IH]; simpl.
  - intros _. split; [by intros ?%elem_of_nil | done].
  - intros [Hk0 Hd]%NoDup_cons. rewrite elem_of_cons, (IH Hd).
    case_bool_decide as Hk.
    + subst k0. split; [|naive_solver].
      intros [[= ->] | Hget]; [done|].
      apply IH in Hget; [|done]. destruct Hk0.
      apply list_elem_of_fmap. by exists (k, v).
    + naive_solver.
Qed.

(** Where an entry of the scanned dictionary comes from. *)
Lemma scan_fold_get dir refs : ∀ res k v,
  dict_get k (fold_left (scan_step dir) refs res) = Some v ↔
  (∃ r, r ∈ refs ∧ PyStr.startswith "data:" r = false ∧
        k = normalize r ∧ v = dir +:+ "/" +:+ k) ∨
  ((∀ r, r ∈ refs → PyStr.startswith "data:" r = false → normalize r ≠ k) ∧
   dict_get k res = Some v).
Proof.
  induction refs as [|r0 refs IH]; intros res k v; simpl.
  - split; [intros ?; right; split; [by intros ? ?%elem_of_nil | done]|].
    intros [(r & ?%elem_of_nil & _) | [_ ?]]; done.
  - rewrite IH. unfold scan_step.
    destruct (PyStr.startswith "data:" r0) eqn:Hdata; simpl.
    + split.
      * intros [(r & Hr & ?) | [Hnone Hget]].
        -- left. exists r. split; [by right | done].
        -- right. split; [|done]. intros r [-> | Hr]%elem_of_cons Hd;
             [congruence | by apply Hnone].
      * intros [(r & [-> | Hr]%elem_of_cons & Hd & ?) | [Hnone Hget]].
        -- congruence.
        -- left. by exists r.
        -- right. split; [|done]. intros r Hr. apply Hnone. by right.
    + rewrite dict_get_set. split.
      * intros [(r & Hr & ?) | [Hnone Hget]].
        -- left. exists r. split; [by right | done].
        -- case_bool_decide as Hk.
           ++ left. exists r0. injection Hget as <-. subst k.
              repeat split; [by left | done].
           ++ right. split; [|done]. intros r [-> | Hr]%elem_of_cons Hd;
                [done | by apply Hnone].
      * intros [(r & [-> | Hr]%elem_of_cons & Hd & Hk & Hv) | [Hnone Hget]].
        -- destruct (decide (Exists (λ r', PyStr.startswith "data:" r' = false ∧
                                           k = normalize r') refs))
             as [(r' & ? & ? & ?)%Exists_exists | Hno].
           ++ left. by exists r'.
           ++ right. split.
              ** intros r' ? ? ?. apply Hno, Exists_exists.
                 exists r'. split; [done|]. split; [done | congruence].
              ** subst k v. by rewrite bool_decide_true.
        -- left. by exists r.
        -- right. split; [intros r Hr; apply Hnone; by right|].
           rewrite bool_decide_false; [done|].
           intros Heq. by apply (Hnone r0); [left | |].
Qed.

Lemma scan_fold_keys dir refs : ∀ res,
  NoDup res.*1 → NoDup (fold_left (scan_step dir) refs res).*1.
Proof.
  induction refs as [|r0 refs IH]; intros res Hres; simpl; [done|].
  apply IH. unfold scan_step. destruct (negb _); [|done].
  by apply dict_set_keys.
Qed.

End css_scan.

(** ** The download loops *)

Section downloads.
Import Links Manifest.

Variable server : disk → string → string → outcome.
Variable locate : list string → string.
Variable legacy_str : string.

Implicit Types (d : disk) (l : list (string * string)).

Lemma only_missing_refl d : only_missing d d.
Proof.
  split; [done|]. exists []. split; [by rewrite app_nil_r|].
  by intros ? ? ?%elem_of_nil.
Qed.

Lemma only_missing_trans d0 d1 d2 :
  only_missing d0 d1 → only_missing d1 d2 → only_missing d0 d2.
Proof.
  intros [Hf1 (new1 & Hr1 & Hn1)] [Hf2 (new2 & Hr2 & Hn2)].
  split; [set_solver|]. exists (new1 ++ new2).
  split; [by rewrite Hr2, Hr1, app_assoc|].
  intros url path [?|?]%elem_of_app; [by eapply Hn1|].
  intros Hin. by eapply Hn2; [|apply Hf1].
Qed.

Lemma fetch_if_missing_only_missing url path d :
  only_missing d (fetch_if_missing server url path d).1.
Proof.
  unfold fetch_if_missing. case_bool_decide as Hin; [apply only_missing_refl|].
  unfold download_file.
  destruct (server d url path) as [| |e [|]]; (split; simpl; [set_solver|]);
    (exists [(url, path)]; split; [done|]);
    by intros u p [= -> ->]%list_elem_of_singleton.
Qed.

Lemma css_loop_only_missing l : ∀ d,
  only_missing d (css_loop server locate l d).1.
Proof.
  induction l as [|[k v] l IH]; intros d; [apply only_missing_refl|].
  cbn [css_loop].
  pose proof (fetch_if_missing_only_missing v (locate [k]) d) as Hstep.
  destruct (fetch_if_missing server v (locate [k]) d) as [d1 [[]|ex]];
    simpl in Hstep; [|done].
  eapply only_missing_trans; [exact Hstep | apply IH].
Qed.

Lemma mirror_image_only_missing a d :
  only_missing d (mirror_image server locate legacy_str a d).1.2.
Proof.
  unfold mirror_image.
  destruct (a !! "data-src") as [[src|cl|]|]; try apply only_missing_refl.
  destruct (PyStr.split "key=" _ !! 1) as [filename|];
    [|apply only_missing_refl].
  pose proof (fetch_if_missing_only_missing
                (if PyStr.startswith "https:" src then src
                 else "https://userguide.volkswagen.de" +:+ legacy_str +:+ src)
                (locate ["img"; filename]) d) as Hstep.
  by destruct (fetch_if_missing _ _ _ _) as [d1 [[]|ex]].
Qed.

Lemma image_loop_only_missing sel : ∀ soup d,
  only_missing d (image_loop server locate legacy_str sel soup d).1.2.
Proof.
  induction sel as [|i sel IH]; intros soup d; simpl;
    [apply only_missing_refl|].
  destruct (soup !! i) as [e|]; [|apply IH].
  pose proof (mirror_image_only_missing (attrs e) d) as Hstep.
  destruct (mirror_image server locate legacy_str (attrs e) d) as [[st d'] r].
  simpl in Hstep. destruct r as [[]|ex]; [|done].
  eapply only_missing_trans; [exact Hstep | apply IH].
Qed.

Lemma download_resources_only_missing soup l d :
  only_missing d (download_resources server locate legacy_str soup l d).1.2.
Proof.
  unfold download_resources.
  pose proof (image_loop_only_missing (select is_img soup) soup d) as Himg.
  destruct (image_loop _ _ _ _ _ _) as [[soup' d'] [[]|ex]]; simpl in *; [|done].
  pose proof (css_loop_only_missing l d') as Hcss.
  destruct (css_loop server locate l d') as [d'' r]. simpl in *.
  eapply only_missing_trans; [exact Himg | exact Hcss].
Qed.

(** When the loop over the manifest ends normally, every resource of the
    manifest had a file by its turn or was asked for, at the address the
    manifest gives, with the file its key locates. *)
Lemma css_loop_requests l : ∀ d d' k v,
  css_loop server locate l d = (d', Ok tt) → (k, v) ∈ l →
  (v, locate [k]) ∈ requested d' ∨ locate [k] ∈ files d'.
Proof.
  induction l as [|[k0 v0] l IH]; intros d d' k v Hrun Hin;
    [by apply elem_of_nil in Hin|].
  cbn [css_loop] in Hrun.
  destruct (fetch_if_missing server v0 (locate [k0]) d) as [d1 [[]|ex]]
    eqn:Hstep; [|done].
  apply elem_of_cons in Hin as [[= -> ->] | Hin]; [|by eapply IH].
  pose proof (css_loop_only_missing l d1) as [Hfiles (new & Hreq & _)].
  rewrite Hrun in Hfiles, Hreq. simpl in Hfiles, Hreq.
  unfold fetch_if_missing in Hstep. case_bool_decide as Hfile.
  - injection Hstep as <-. right. by apply Hfiles.
  - left. rewrite Hreq. apply elem_of_app. left.
    unfold download_file in Hstep.
    destruct (server d v0 (locate [k0])) as [| |e w]; injection Hstep as <-;
      simpl; apply elem_of_app; right; by left.
Qed.

End downloads.

Section normal_form.
Import Manifest.

Lemma normalize_cuts rel_path :
  normalize rel_path =
  PyStr.rsplit1_head "?" (PyStr.rsplit1_head "#" rel_path).
Proof.
  unfold normalize. rewrite !contains_char.
  assert (Hcut : ∀ c s,
    (if PyStr.has_char c s then PyStr.rsplit1_head (String c EmptyString) s
     else s) = PyStr.rsplit1_head (String c EmptyString) s).
  { intros c s. destruct (PyStr.has_char c s) eqn:Hc; [done|].
    destruct (rsplit1_head_char c s) as [[_ ->] | (t & Hs & Ht)]; [done|].
    unfold PyStr.rsplit1_head.
    by rewrite (proj2 (before_last_char_None c s) Hc). }
  by rewrite (Hcut "#"%char), (Hcut "?"%char).
Qed.

(** What [normalize] removes: a last part that starts at the last "#", and
    before it a part that starts at the last "?" of what is left. *)
Lemma normalize_suffix rel_path :
  ∃ q f, rel_path = normalize rel_path +:+ q +:+ f ∧
    ((f = EmptyString ∧ PyStr.has_char "#" rel_path = false) ∨
     (∃ f', f = String "#" f' ∧ PyStr.has_char "#" f' = false)) ∧
    ((q = EmptyString ∧ PyStr.has_char "?" (normalize rel_path) = false) ∨
     (∃ q', q = String "?" q' ∧ PyStr.has_char "?" q' = false)).
Proof.
  rewrite normalize_cuts.
  set (r1 := PyStr.rsplit1_head "#" rel_path).
  assert (Hf : ∃ f, rel_path = r1 +:+ f ∧
    ((f = EmptyString ∧ PyStr.has_char "#" rel_path = false) ∨
     (∃ f', f = String "#" f' ∧ PyStr.has_char "#" f' = false))).
  { destruct (rsplit1_head_char "#" rel_path) as [[Hno Heq] | (t & Hs & Ht)].
    - exists EmptyString. fold r1 in Heq. rewrite Heq, string_app_nil_r.
      split; [done | by left].
    - exists (String "#" t). split; [done | right; by exists t]. }
  destruct Hf as (f & Hrel & Hfs).
  destruct (rsplit1_head_char "?" r1) as [[Hno Heq] | (t & Hs & Ht)].
  - exists EmptyString, f. rewrite Heq, string_app_nil_l.
    split; [done|]. split; [done | by left].
  - exists (String "?" t), f. rewrite <- string_app_assoc, <- Hs.
    split; [done|]. split; [done | right; by exists t].
Qed.

End normal_form.

(** ** Properties of the resource manifest *)

Section resource_properties.
Import Links Manifest.

Variable server : disk → string → string → outcome.
Variable locate : list string → string.
Variable legacy_str : string.

(** C7: a url reference found in the text of a stylesheet.  [normalize]
    removes from it a last part that starts at its last "#" and then a part
    that starts at the last "?" of what is left.  Unless the reference
    starts with "data:", the manifest, whatever it held before the scan of
    this stylesheet, maps the normalized path to the directory of the
    stylesheet, a slash and the normalized path.  Every entry the scan adds
    or changes comes from such a reference, so a reference that starts with
    "data:" adds none.  The key of an entry is its local path and the value
    its address: when the loop over a manifest that still holds the entry
    ends normally, the file that the folder and the normalized path locate
    was there by the turn of the entry, or [download_file] was called with
    the address of the entry and that file.  The reference
    "icons/x.png?v=2" of a stylesheet of the directory "/css" of the site
    gives the path "icons/x.png" and the address of "/css/icons/x.png". *)
Theorem css_reference_manifest_entry dir css_text res rel_path :
  rel_path ∈ findall_url css_text →
  let n := normalize rel_path in
  let manifest := scan_css dir css_text res in
  (∃ q f, rel_path = n +:+ q +:+ f ∧
     ((f = EmptyString ∧ PyStr.has_char "#" rel_path = false) ∨
      (∃ f', f = String "#" f' ∧ PyStr.has_char "#" f' = false)) ∧
     ((q = EmptyString ∧ PyStr.has_char "?" n = false) ∨
      (∃ q', q = String "?" q' ∧ PyStr.has_char "?" q' = false))) ∧
  (PyStr.startswith "data:" rel_path = false →
     dict_get n manifest = Some (dir +:+ "/" +:+ n) ∧
     (NoDup res.*1 → (n, dir +:+ "/" +:+ n) ∈ manifest) ∧
     (∀ final d d',
        (n, dir +:+ "/" +:+ n) ∈ final →
        css_loop server locate final d = (d', Ok tt) →
        (dir +:+ "/" +:+ n, locate [n]) ∈ requested d' ∨
        locate [n] ∈ files d')) ∧
  (∀ k v, dict_get k manifest = Some v →
     (∃ r, r ∈ findall_url css_text ∧ PyStr.startswith "data:" r = false ∧
           k = normalize r ∧ v = dir +:+ "/" +:+ k) ∨
     dict_get k res = Some v) ∧
  scan_stylesheets [("/css/main.css", "a{background:url(icons/x.png?v=2)}")]
    = [("icons/x.png", "https://userguide.volkswagen.de/css/icons/x.png")].
Proof.
  intros Hin n manifest. split; [apply normalize_suffix|].
  split; [|split]; [| |reflexivity].
  - intros Hdata.
    assert (Hget : dict_get n manifest = Some (dir +:+ "/" +:+ n)).
    { apply scan_fold_get. left. by exists rel_path. }
    split; [done|]. split.
    + intros Hres. apply dict_get_elem; [|done]. by apply scan_fold_keys.
    + intros final d d' Hentry Hrun.
      by eapply css_loop_requests.
  - intros k v [Hsrc | [_ Hget]]%scan_fold_get; [by left | by right].
Qed.

(** C8: an asset whose local path already has a file is not retrieved.
    The check before [download_file] leaves the folder as it is; over the
    whole of the two download loops no retrieval is made for such a path
    and its file stays; and a second run over the folder the first one
    left makes no retrieval for it, whatever document and manifest it is
    given. *)
Theorem present_assets_not_retrieved soup css_resources d0 path :
  path ∈ files d0 →
  let d := (download_resources server locate legacy_str soup css_resources
              d0).1.2 in
  (∀ url, fetch_if_missing server url path d0 = (d0, Ok tt)) ∧
  (∀ url, (url, path) ∈ requested d → (url, path) ∈ requested d0) ∧
  path ∈ files d ∧
  (∀ soup' css_resources' url,
     (url, path) ∉ requested
       (download_resources server locate legacy_str soup' css_resources'
          (Disk (files d) [])).1.2).
Proof.
  intros Hpath d.
  assert (Hkeep : ∀ soup1 css1 d1 url, path ∈ files d1 →
    (url, path) ∈ requested
      (download_resources server locate legacy_str soup1 css1 d1).1.2 →
    (url, path) ∈ requested d1).
  { intros soup1 css1 d1 url Hin.
    destruct (download_resources_only_missing server locate legacy_str
                soup1 css1 d1) as [_ (new & -> & Hnew)].
    intros [?|Hn]%elem_of_app; [done|]. by destruct (Hnew _ _ Hn). }
  destruct (download_resources_only_missing server locate legacy_str
              soup css_resources d0) as [Hfiles _].
  fold d in Hfiles.
  repeat split.
  - intros url. unfold fetch_if_missing. by rewrite bool_decide_true.
  - intros url. by apply Hkeep.
  - by apply Hfiles.
  - intros soup' css' url Hreq. apply Hkeep in Hreq; simpl in *.
    + by apply elem_of_nil in Hreq.
    + by apply Hfiles.
Qed.

End resource_properties.

Section resource_witnesses.
Import Links Manifest Samples MoreSamples.

Lemma css_reference_manifest_entry_witness :
  dict_get "icons/x.png" (scan_css "https://userguide.volkswagen.de/css"
                            sample_css [])
    = Some "https://userguide.volkswagen.de/css/icons/x.png".
Proof.
  refine (proj1 (proj1 (proj2 (css_reference_manifest_entry always_saved
            plain_locate "https://userguide.volkswagen.de/css" sample_css []
            "icons/x.png?v=2" _)) _)).
  - unfold sample_css. vm_compute. left.
  - reflexivity.
Defined.

Lemma present_assets_not_retrieved_witness :
  requested (download_resources always_saved plain_locate EmptyString
               sample_page
               [("icons/x.png", "https://userguide.volkswagen.de/css/icons/x.png")]
               (Disk {["img/abc.png"]} [])).1.2
    = [("https://userguide.volkswagen.de/css/icons/x.png", "icons/x.png")] ∧
  ∀ url, ("https://userguide.volkswagen.de/api/img?key=abc.png", "img/abc.png")
           ∈ requested
               (download_resources always_saved plain_locate EmptyString
                  sample_page [("icons/x.png", url)]
                  (Disk {["img/abc.png"]} [])).1.2 →
         False.
Proof.
  split; [reflexivity|].
  intros url Hreq.
  apply (proj1 (proj2 (present_assets_not_retrieved always_saved plain_locate
           EmptyString sample_page [("icons/x.png", url)]
           (Disk {["img/abc.png"]} []) "img/abc.png" ltac:(set_solver)))) in Hreq.
  by apply elem_of_nil in Hreq.
Defined.

End resource_witnesses.

(** ** Template substitution *)

Section substitution.
Import Template.

Implicit Types (s t k v : string) (ps : list piece)
  (repl : list (string * string)).

Lemma prefix_nil s : String.prefix EmptyString s = true.
Proof. by destruct s. Qed.

Lemma prefix_cons a b s t :
  String.prefix (String a s) (String b t) =
    bool_decide (a = b) && String.prefix s t.
Proof.
  cbn. destruct (ascii_dec a b) as [->|Hne].
  - by rewrite bool_decide_true.
  - by rewrite bool_decide_false.
Qed.

Lemma prefix_app s t : String.prefix s (s +:+ t) = true.
Proof.
  induction s as [|a s IH]; [apply prefix_nil|].
  rewrite string_app_cons, prefix_cons, IH. by rewrite bool_decide_true.
Qed.

Lemma has_char_app c s t :
  PyStr.has_char c (s +:+ t) = PyStr.has_char c s || PyStr.has_char c t.
Proof.
  induction s as [|a s IH]; [done|].
  rewrite string_app_cons. cbn [PyStr.has_char]. by rewrite IH, orb_assoc.
Qed.

Lemma string_app_length s t :
  String.length (s +:+ t) = String.length s + String.length t.
Proof.
  induction s as [|a s IH]; [done|].
  rewrite string_app_cons. cbn [String.length]. by rewrite IH.
Qed.

(** *** The scan of [replace] *)

(** The characters of a match are stepped over. *)
Lemma replace_go_skip old new t rest :
  PyStr.replace_go old new (String.length t) (t +:+ rest) =
  PyStr.replace_go old new 0 rest.
Proof.
  induction t as [|a t IH]; [by destruct rest|].
  by rewrite string_app_cons.
Qed.

(** A match at the head of the text. *)
Lemma replace_go_match a old new rest :
  PyStr.replace_go (String a old) new 0 (String a old +:+ rest) =
  new +:+ PyStr.replace_go (String a old) new 0 rest.
Proof.
  rewrite string_app_cons. cbn [PyStr.replace_go].
  rewrite <- string_app_cons, prefix_app.
  replace (String.length (String a old) - 1) with (String.length old)
    by (cbn [String.length]; lia).
  by rewrite replace_go_skip.
Qed.

(** A text that never shows the first character of the pattern is copied. *)
Lemma replace_go_copy a old new s rest :
  PyStr.has_char a s = false →
  PyStr.replace_go (String a old) new 0 (s +:+ rest) =
  s +:+ PyStr.replace_go (String a old) new 0 rest.
Proof.
  induction s as [|b s IH]; [done|].
  cbn [PyStr.has_char]. intros [Hb Hs]%orb_false_elim.
  apply bool_decide_eq_false in Hb.
  rewrite !string_app_cons. cbn [PyStr.replace_go].
  rewrite prefix_cons.
  rewrite bool_decide_false by congruence. cbn [andb].
  by rewrite IH.
Qed.

(** *** Tokens *)

Lemma token_unfold k :
  token k = String "{" (String "{" (k +:+ "}}")).
Proof. reflexivity. Qed.

(** Two keys without a closing brace whose tokens agree up to the closing
    braces of the first are the same key. *)
Lemma key_prefix_eq k : ∀ k' rest,
  PyStr.has_char "}" k = false → PyStr.has_char "}" k' = false →
  String.prefix (k +:+ "}}") ((k' +:+ "}}") +:+ rest) = true → k = k'.
Proof.
  induction k as [|a k IH]; intros [|b k'] rest Hk Hk'; cbn [PyStr.has_char] in *.
  - done.
  - apply orb_false_elim in Hk' as [Hb _]. apply bool_decide_eq_false in Hb.
    rewrite string_app_nil_l, !string_app_cons, prefix_cons.
    intros [Heq _]%andb_prop. apply bool_decide_eq_true in Heq. congruence.
  - apply orb_false_elim in Hk as [Ha _]. apply bool_decide_eq_false in Ha.
    rewrite string_app_nil_l, !string_app_cons, prefix_cons.
    intros [Heq _]%andb_prop. apply bool_decide_eq_true in Heq. congruence.
  - apply orb_false_elim in Hk as [_ Hk].
    apply orb_false_elim in Hk' as [_ Hk'].
    rewrite !string_app_cons, prefix_cons.
    intros [Heq Hpre]%andb_prop. apply bool_decide_eq_true in Heq as ->.
    f_equal. by eapply IH.
Qed.

(** The token of another key is copied. *)
Lemma replace_go_other k k' v rest :
  brace_free k → brace_free k' → k ≠ k' →
  PyStr.replace_go (token k) v 0 (token k' +:+ rest) =
  token k' +:+ PyStr.replace_go (token k) v 0 rest.
Proof.
  intros [_ Hk] [Hopen Hclose] Hne.
  rewrite !token_unfold, !string_app_cons.
  cbn [PyStr.replace_go].
  (* no match where the token of [k'] starts *)
  rewrite !prefix_cons, !bool_decide_true by done. cbn [andb].
  destruct (String.prefix (k +:+ "}}") ((k' +:+ "}}") +:+ rest)) eqn:Hpre.
  { by destruct Hne; eapply key_prefix_eq. }
  f_equal.
  (* none at its second brace: the next character is not a brace *)
  assert (Hsecond : String.prefix (String "{" (k +:+ "}}"))
                      ((k' +:+ "}}") +:+ rest) = false).
  { destruct k' as [|b k'].
    - by rewrite string_app_nil_l.
    - cbn [PyStr.has_char] in Hopen.
      apply orb_false_elim in Hopen as [Hb _].
      apply bool_decide_eq_false in Hb.
      rewrite !string_app_cons, prefix_cons.
      by rewrite bool_decide_false by congruence. }
  rewrite Hsecond. f_equal.
  (* and none inside the key or at its closing braces *)
  apply replace_go_copy. rewrite has_char_app, Hopen. done.
Qed.

End substitution.

Section substitution_properties.
Import Template.

Implicit Types (k v : string) (ps : list piece)
  (repl : list (string * string)).

(** One [replace] fills the placeholders of its key and nothing else. *)
Lemma replace_render k v ps :
  brace_free k → Forall plain ps →
  PyStr.replace (token k) v (render ps) = render (map (fill1 [(k, v)]) ps).
Proof.
  intros Hk Hps.
  change (PyStr.replace (token k) v (render ps))
    with (PyStr.replace_go (token k) v 0 (render ps)).
  induction Hps as [|[s|k'] ps Hp Hps IH]; [done| |];
    cbn [map fill1 render assoc].
  - rewrite token_unfold, replace_go_copy by exact Hp.
    by rewrite <- token_unfold, IH.
  - case_bool_decide as Heq.
    + subst k'. cbn [render].
      rewrite (token_unfold k).
      rewrite replace_go_match. by rewrite <- token_unfold, IH.
    + cbn [render]. rewrite replace_go_other by done. by rewrite IH.
Qed.

Lemma fill1_plain k v ps :
  no_open v → Forall plain ps → Forall plain (map (fill1 [(k, v)]) ps).
Proof.
  intros Hv Hps. induction Hps as [|[s|k'] ps Hp Hps IH];
    cbn [map fill1 assoc]; [constructor|by constructor|].
  case_bool_decide; by constructor.
Qed.

Lemma fill1_cons k v repl p :
  fill1 repl (fill1 [(k, v)] p) = fill1 ((k, v) :: repl) p.
Proof.
  destruct p as [s|k']; [done|]. cbn [fill1 assoc].
  by case_bool_decide.
Qed.

Lemma fill1_nil ps : map (fill1 []) ps = ps.
Proof. induction ps as [|[s|k] ps IH]; cbn [map fill1 assoc]; by rewrite ?IH. Qed.

Lemma fill1_app repl1 repl2 p :
  fill1 repl2 (fill1 repl1 p) = fill1 (repl1 ++ repl2) p.
Proof.
  destruct p as [s|k]; [done|]. cbn [fill1].
  induction repl1 as [|[k1 v1] repl1 IH]; [done|].
  cbn [app assoc]. by case_bool_decide.
Qed.

Lemma fill1_piece_plain repl p :
  Forall (λ kv, no_open kv.2) repl → plain p → plain (fill1 repl p).
Proof.
  intros Hrepl Hp. destruct p as [s|k]; [done|]. cbn [fill1].
  induction Hrepl as [|[k1 v1] repl Hv Hrepl IH]; cbn [assoc]; [done|].
  case_bool_decide; [exact Hv | exact IH].
Qed.

Lemma fill_plain repl ps :
  Forall (λ kv, no_open kv.2) repl → Forall plain ps →
  Forall plain (map (fill1 repl) ps).
Proof.
  intros Hrepl Hps. apply Forall_map.
  eapply Forall_impl; [exact Hps|]. intros p Hp.
  by apply fill1_piece_plain.
Qed.

(** A mapping all of whose values hold no opening brace. *)
Lemma replace_in_template_fill ps repl :
  Forall plain ps →
  Forall (λ kv, brace_free kv.1 ∧ no_open kv.2) repl →
  replace_in_template (render ps) repl = fill repl ps.
Proof.
  intros Hps Hrepl. revert ps Hps.
  induction Hrepl as [|[k v] repl [Hk Hv] Hrepl IH]; intros ps Hps.
  - unfold fill. by rewrite fill1_nil.
  - unfold replace_in_template. cbn [fold_left fst snd].
    rewrite replace_render by done.
    fold (replace_in_template (render (map (fill1 [(k, v)]) ps)) repl).
    rewrite IH by (by apply fill1_plain).
    unfold fill. rewrite map_map. f_equal.
    apply map_ext. intros p. apply fill1_cons.
Qed.

Lemma render_app ps qs : render (ps ++ qs) = render ps +:+ render qs.
Proof.
  induction ps as [|[s|k] ps IH]; cbn [app render]; [done| |];
    by rewrite IH, string_app_assoc.
Qed.

Lemma render_splice k qs ps :
  render (map (fill1 [(k, render qs)]) ps) = render (splice k qs ps).
Proof.
  unfold splice. induction ps as [|[s|k'] ps IH];
    cbn [map concat fill1 splice1 assoc]; [done| |].
  - cbn [app render]. by rewrite IH.
  - destruct (decide (k' = k)) as [-> | Hne].
    + rewrite !bool_decide_true by done.
      rewrite render_app. cbn [render]. by rewrite IH.
    + rewrite !bool_decide_false by congruence.
      cbn [app render]. by rewrite IH.
Qed.

Lemma splice_plain k qs ps :
  Forall plain qs → Forall plain ps → Forall plain (splice k qs ps).
Proof.
  intros Hqs Hps. unfold splice.
  induction Hps as [|[s|k'] ps Hp Hps IH]; cbn [map concat splice1];
    [constructor| |].
  - by constructor.
  - case_bool_decide; [by apply Forall_app | by constructor].
Qed.




(** Why the literal text matters: a value without any brace can complete a
    token with the text around its placeholder, which a later key expands. *)
Example template_boundary_token :
  replace_in_template "{{X{{A}}Y}}" [("A", "_"); ("X_Y", "!")] = "!".
Proof. reflexivity. Qed.

End substitution_properties.

(** ** The string primitives on small inputs *)

Example replace_all_occurrences :
  PyStr.replace "ab" "X" "abcabab" = "XcXX".
Proof. reflexivity. Qed.

Example replace_not_overlapping :
  PyStr.replace "aa" "b" "aaa" = "ba".
Proof. reflexivity. Qed.

Example replace_empty_pattern :
  PyStr.replace EmptyString "-" "abc" = "-a-b-c-".
Proof. reflexivity. Qed.

Example rsplit1_last_only :
  PyStr.rsplit1 "#" "a#b#c" = ["a#b"; "c"].
Proof. reflexivity. Qed.

Example rsplit1_absent :
  PyStr.rsplit1 "/" "abc" = ["abc"].
Proof. reflexivity. Qed.

Example split_key :
  PyStr.split "key=" "/api/img?key=abc.png" = ["/api/img?"; "abc.png"].
Proof. reflexivity. Qed.

Example split_edges :
  PyStr.split "," ",a,,b," = [EmptyString; "a"; EmptyString; "b"; EmptyString].
Proof. reflexivity. Qed.

Example findall_url_groups :
  Manifest.findall_url
    "a{background:url(icons/x.png?v=2)} b{src:url(data:image/png;base64,AAA=)} url() url((x))"
  = ["icons/x.png?v=2"; "data:image/png;base64,AAA="].
Proof. reflexivity. Qed.

Example normalize_last_marks :
  Manifest.normalize "font.woff?a=1#iefix" = "font.woff" ∧
  Manifest.normalize "a#b#c" = "a#b" ∧
  Manifest.normalize "plain.png" = "plain.png".
Proof. by vm_compute. Qed.

Example unwrap_shell :
  Assembler.unwrap "<html lang='fr'><p>one</p></html>" = Ok "<p>one</p>" ∧
  Assembler.unwrap "<p>two</p>" = Ok "<p>two</p>" ∧
  Assembler.unwrap "<html</html>" = Raise AttributeError.
Proof. by vm_compute. Qed.

Example assemble_sound_guide :
  Assembler.assemble Samples.sample_fetch Samples.sample_templates false
    "sidebar" Samples.sound_guide
  = Ok ("<div id='n0'><h1>Chapter</h1><div id='n1' data-key='k1'><p>one</p></div></div><div id='n2' data-key='k2'><p>two</p></div>",
        "<li>Chapter<ul><li><a href='#k1'>One</a></li></ul></li><li><a href='#k2'>Two</a></li>",
        {["a2" := Assembler.LinkState None]}
          ∪ {["a1" := Assembler.LinkState (Some "k2")]}).
Proof. by vm_compute. Qed.

(** * Further properties *)

(** ** The assembly as a composition *)

Section assembly_composition.
Import Template Assembler Tree.

Variable fetch : string → response.
Variable tpl : templates.
Variable toc_position : string.

Implicit Types (t c : topic) (cs ts : list topic).

Lemma merge_loop_ext {A} (f g : A → result rendered) xs acc :
  Forall (λ x, f x = g x) xs → merge_loop f xs acc = merge_loop g xs acc.
Proof.
  intros Hfg. revert acc. induction Hfg as [|x xs Hx Hxs IH]; intros acc; [done|].
  simpl. rewrite Hx. destruct (g x) as [[[b tc] h]|e]; [|done].
  destruct acc as [[b0 t0] h0]. apply IH.
Qed.

(** What the loop has accumulated so far only stands in front. *)
Lemma merge_loop_acc {A} (f : A → result rendered) xs :
  ∀ (b0 t0 : string) (h0 : gmap string link_state),
  merge_loop f xs (b0, t0, h0) =
    match merge_loop f xs (EmptyString, EmptyString, ∅) with
    | Ok (b, tc, h) => Ok (b0 +:+ b, t0 +:+ tc, h ∪ h0)
    | Raise e => Raise e
    end.
Proof.
  induction xs as [|x xs IH]; intros b0 t0 h0; simpl.
  - by rewrite !string_app_nil_r, (left_id_L ∅ (∪)).
  - destruct (f x) as [[[bc tcc] hc]|e]; [|done].
    rewrite (IH (b0 +:+ bc)), (IH (EmptyString +:+ bc)).
    destruct (merge_loop f xs (EmptyString, EmptyString, ∅))
      as [[[b tc] h]|e]; [|done].
    rewrite !string_app_nil_l, !string_app_assoc. unfold update.
    by rewrite (right_id_L ∅ (∪)), (assoc_L (∪)).
Qed.

(** X1: the sections of a guide are assembled one after the other and
    independently.  Assembling two runs of sections gives the bodies and
    the tables of contents of the two runs concatenated and the second
    reference map merged onto the first; an exception in the first run is
    the result, whatever the second run holds. *)
Theorem assemble_app crash ts1 ts2 :
  assemble fetch tpl crash toc_position (ts1 ++ ts2) =
    match assemble fetch tpl crash toc_position ts1 with
    | Ok (b1, t1, h1) =>
        match assemble fetch tpl crash toc_position ts2 with
        | Ok (b2, t2, h2) => Ok (b1 +:+ b2, t1 +:+ t2, update h1 h2)
        | Raise e => Raise e
        end
    | Raise e => Raise e
    end.
Proof.
  unfold assemble. rewrite merge_loop_app.
  destruct (merge_loop _ ts1 _) as [[[b1 t1] h1]|e]; [|done].
  by rewrite merge_loop_acc.
Qed.

(** X2: the depth of a node only matters for the 'header' placement of the
    table of contents: with any other placement [build_dom] gives the same
    result at every level. *)
Theorem build_dom_level_irrelevant crash t level1 level2 :
  toc_position ≠ "header" →
  build_dom fetch tpl crash toc_position t level1 =
  build_dom fetch tpl crash toc_position t level2.
Proof.
  intros Hpos. revert level1 level2.
  induction t as [id lab link cs IH] using topic_rect_children.
  intros level1 level2. destruct cs as [|c cs]; [done|].
  cbn [build_dom].
  rewrite (merge_loop_ext
             (λ c, build_dom fetch tpl crash toc_position c (S level1))
             (λ c, build_dom fetch tpl crash toc_position c (S level2))).
  - destruct (merge_loop _ (c :: cs) _) as [[[b tc] h]|e]; [|done].
    by rewrite !bool_decide_false.
  - eapply Forall_impl; [exact IH|]. intros c' Hc'. apply Hc'.
Qed.

(** X4: a run that ends normally under the fatal policy met no HTTP error,
    and the tolerant policy gives the same rendered unit. *)
Theorem build_dom_policy t : ∀ level r,
  build_dom fetch tpl true toc_position t level = Ok r →
  build_dom fetch tpl false toc_position t level = Ok r.
Proof.
  induction t as [id lab link cs IH] using topic_rect_children.
  intros level r. destruct cs as [|c cs].
  - simpl. unfold leaf_content. case_bool_decide; [done|].
    by destruct (fetch link).
  - cbn [build_dom]. intros Hrun.
    assert (Hloop : ∀ xs acc r',
      Forall (λ t, ∀ level r,
        build_dom fetch tpl true toc_position t level = Ok r →
        build_dom fetch tpl false toc_position t level = Ok r) xs →
      merge_loop (λ c, build_dom fetch tpl true toc_position c (S level)) xs acc
        = Ok r' →
      merge_loop (λ c, build_dom fetch tpl false toc_position c (S level)) xs acc
        = Ok r').
    { intros xs. induction xs as [|x xs IHxs]; intros acc r' Hxs; [done|].
      apply Forall_cons in Hxs as [Hx Hxs]. simpl.
      destruct (build_dom fetch tpl true toc_position x (S level))
        as [[[b tc] h]|e] eqn:Hbx; [|done].
      rewrite (Hx _ _ Hbx). destruct acc as [[b0 t0] h0]. by apply IHxs. }
    destruct (merge_loop
                (λ c, build_dom fetch tpl true toc_position c (S level))
                (c :: cs) _) as [r'|e] eqn:Hm; [|done].
    by rewrite (Hloop _ _ _ IH Hm).
Qed.

End assembly_composition.

Section assembly_fetches.
Import Template Assembler Tree.

Variable tpl : templates.
Variable toc_position : string.

(** X3: [build_dom] asks the server for the keys of the leaves that have
    one and for nothing else: two servers that agree on those keys give the
    same result, whatever they answer for the key of an inner node or for
    the empty key. *)
Theorem build_dom_fetches_leaf_keys fetch1 fetch2 crash t : ∀ level,
  (∀ k, k ∈ leaf_keys t → fetch1 k = fetch2 k) →
  build_dom fetch1 tpl crash toc_position t level =
  build_dom fetch2 tpl crash toc_position t level.
Proof.
  induction t as [id lab link cs IH] using topic_rect_children.
  intros level Hagree. destruct cs as [|c cs].
  - simpl in *. unfold leaf_content.
    case_bool_decide as Hlink; [done|].
    rewrite (Hagree link) by (by left). done.
  - cbn [build_dom].
    rewrite (merge_loop_ext
               (λ c, build_dom fetch1 tpl crash toc_position c (S level))
               (λ c, build_dom fetch2 tpl crash toc_position c (S level)));
      [done|].
    rewrite Forall_forall in IH. apply Forall_forall. intros c' Hc'.
    apply IH; [done|]. intros k Hk. apply Hagree.
    cbn [leaf_keys]. apply list_elem_of_In, in_concat.
    exists (leaf_keys c'). split; [|by apply list_elem_of_In].
    apply in_map. by apply list_elem_of_In.
Qed.

End assembly_fetches.

Section assembly_more_witnesses.
Import Template Assembler Tree Samples.

Lemma build_dom_level_irrelevant_witness :
  build_dom sample_fetch sample_templates false "sidebar"
    (Topic "n0" "Chapter" EmptyString [Topic "n1" "One" "k1" []]) 0 =
  build_dom sample_fetch sample_templates false "sidebar"
    (Topic "n0" "Chapter" EmptyString [Topic "n1" "One" "k1" []]) 3.
Proof.
  apply (build_dom_level_irrelevant sample_fetch sample_templates "sidebar").
  discriminate.
Defined.

Lemma build_dom_policy_witness :
  is_ok (build_dom sample_fetch sample_templates false "sidebar"
           (Topic "n0" "Chapter" EmptyString [Topic "n1" "One" "k1" []]) 0)
    = true.
Proof.
  destruct (build_dom sample_fetch sample_templates true "sidebar"
              (Topic "n0" "Chapter" EmptyString [Topic "n1" "One" "k1" []]) 0)
    as [r|e] eqn:Hrun; [|by vm_compute in Hrun].
  by rewrite (build_dom_policy sample_fetch sample_templates "sidebar" _ _ _ Hrun).
Defined.

Lemma build_dom_fetches_leaf_keys_witness :
  build_dom sample_fetch sample_templates false "sidebar"
    (Topic "n0" "Chapter" "k4" [Topic "n1" "One" "k1" []]) 0 =
  build_dom (λ k, if bool_decide (k = "k1") then sample_fetch k
                  else Failed ConnectionError)
    sample_templates false "sidebar"
    (Topic "n0" "Chapter" "k4" [Topic "n1" "One" "k1" []]) 0.
Proof.
  apply (build_dom_fetches_leaf_keys sample_templates "sidebar").
  intros k Hk. cbn in Hk.
  apply list_elem_of_singleton in Hk as ->. reflexivity.
Defined.

End assembly_more_witnesses.

(** ** The document shell and the placeholders *)

Section shell_and_tokens.
Import Template Assembler.

Implicit Types (s t sep : string).

Lemma contains_here sep s : String.prefix sep s = true → PyStr.contains sep s = true.
Proof. destruct s; simpl; [done|]. by intros ->. Qed.

Lemma contains_app_r sep s t :
  PyStr.contains sep t = true → PyStr.contains sep (s +:+ t) = true.
Proof.
  intros Ht. induction s as [|a s IH]; [done|].
  rewrite string_app_cons. cbn [PyStr.contains]. rewrite IH. apply orb_true_r.
Qed.

Lemma before_last_None sep s :
  PyStr.before_last sep s = None ↔ PyStr.contains sep s = false.
Proof.
  induction s as [|a s IH]; cbn [PyStr.before_last PyStr.contains].
  - by destruct (String.prefix sep EmptyString).
  - destruct (PyStr.before_last sep s) as [h|].
    + split; [done|]. intros [_ H]%orb_false_elim. by apply IH in H.
    + rewrite (proj1 IH eq_refl), orb_false_r.
      by destruct (String.prefix sep (String a s)).
Qed.

(** The last occurrence of a separator: one that starts where [t] starts,
    with none further on. *)
Lemma before_last_app sep s a t :
  String.prefix sep (String a t) = true → PyStr.contains sep t = false →
  PyStr.before_last sep (s +:+ String a t) = Some s.
Proof.
  intros Hpre Hno. induction s as [|b s IH].
  - rewrite string_app_nil_l. cbn [PyStr.before_last].
    rewrite (proj2 (before_last_None sep t) Hno). by rewrite Hpre.
  - rewrite string_app_cons. cbn [PyStr.before_last]. by rewrite IH.
Qed.

Lemma span_stop p s a t :
  (∀ c, PyStr.has_char c s = true → p c = true) → p a = false →
  PyStr.span p (s +:+ String a t) = (s, String a t).
Proof.
  intros Hs Ha. induction s as [|b s IH].
  - rewrite string_app_nil_l. cbn. by rewrite Ha.
  - rewrite string_app_cons. cbn [PyStr.span].
    rewrite (Hs b) by (cbn; by rewrite bool_decide_true).
    rewrite IH; [done|]. intros c Hc. apply Hs. cbn. rewrite Hc.
    apply orb_true_r.
Qed.

(** X5: unwrapping a document shell.  A body made of an opening html tag
    whose attributes hold no ">", an inner text, the closing tag and a rest
    without another closing tag unwraps to the inner text exactly, whatever
    the inner text holds. *)
Theorem unwrap_shell_inner a inner rest :
  PyStr.has_char ">" a = false →
  PyStr.contains "</html>" rest = false →
  unwrap ("<html" +:+ a +:+ ">" +:+ inner +:+ "</html>" +:+ rest) = Ok inner.
Proof.
  intros Ha Hrest. unfold unwrap.
  assert (Hclose : PyStr.contains "</html>"
            ("<html" +:+ a +:+ ">" +:+ inner +:+ "</html>" +:+ rest) = true).
  { do 4 apply contains_app_r. apply contains_here, prefix_app. }
  rewrite Hclose.
  unfold match_html. rewrite prefix_app.
  change (PyStr.drop 5 ("<html" +:+ ?x)) with x.
  change (">" +:+ ?x) with (String ">" x).
  rewrite span_stop.
  - change ("</html>" +:+ rest) with (String "<" ("/html>" +:+ rest)).
    rewrite before_last_app; [done | |].
    + change (String "<" ("/html>" +:+ rest)) with ("</html>" +:+ rest).
      apply prefix_app.
    + change ("/html>" +:+ rest)
        with (String "/" (String "h" (String "t" (String "m" (String "l"
               (String ">" rest)))))).
      cbn [PyStr.contains]. rewrite !prefix_cons. by rewrite Hrest.
  - intros c Hc. apply negb_true_iff, bool_decide_eq_false. intros ->.
    by rewrite Ha in Hc.
  - by rewrite bool_decide_true.
Qed.

Lemma unwrap_shell_inner_witness :
  unwrap "<html lang='fr'><p>a</html>b</p></html> " = Ok "<p>a</html>b</p>".
Proof.
  apply (unwrap_shell_inner " lang='fr'" "<p>a</html>b</p>" " "); reflexivity.
Defined.

(** *** One replacement *)

Lemma replace_go_absent old new s :
  PyStr.contains old s = false → PyStr.replace_go old new 0 s = s.
Proof.
  induction s as [|c s IH]; [done|]. cbn [PyStr.contains PyStr.replace_go].
  intros [-> Hs]%orb_false_elim. by rewrite IH.
Qed.

(** X6: one replacement is literal.  In a text that shows the token of a
    key once, after a part without an opening brace and before a part
    without the token, the token is replaced by the value and the value is
    not scanned again, whatever it holds, the token itself included. *)
Theorem replace_token_once k v pre post :
  no_open pre →
  PyStr.contains (token k) post = false →
  PyStr.replace (token k) v (pre +:+ token k +:+ post) = pre +:+ v +:+ post.
Proof.
  intros Hpre Hpost.
  change (PyStr.replace (token k) v ?s) with (PyStr.replace_go (token k) v 0 s).
  rewrite (token_unfold k). rewrite replace_go_copy by exact Hpre.
  rewrite replace_go_match. rewrite <- (token_unfold k).
  by rewrite replace_go_absent.
Qed.

Lemma replace_token_once_witness :
  PyStr.replace (token "A") "<b>{{A}}</b>" "<p>{{A}}</p>" = "<p><b>{{A}}</b></p>".
Proof.
  apply (replace_token_once "A" "<b>{{A}}</b>" "<p>" "</p>"); reflexivity.
Defined.

(** X7: the keys of a mapping whose tokens do not occur in a template leave
    it unchanged. *)
Theorem replace_in_template_absent tpl repl :
  Forall (λ kv, PyStr.contains (token kv.1) tpl = false) repl →
  replace_in_template tpl repl = tpl.
Proof.
  induction 1 as [|[k v] repl Hk Hrepl IH]; [done|].
  unfold replace_in_template. cbn [fold_left fst snd].
  change (PyStr.replace (token k) v tpl)
    with (PyStr.replace_go (token k) v 0 tpl).
  rewrite replace_go_absent by exact Hk. exact IH.
Qed.

Lemma replace_in_template_absent_witness :
  replace_in_template "<li>{{TOPIC_TITLE}}</li>"
    [("TOPIC_ID", "n1"); ("TOPIC_CONTENT", "<p>{{TOPIC_TITLE}}</p>")]
  = "<li>{{TOPIC_TITLE}}</li>".
Proof.
  apply replace_in_template_absent.
  repeat (apply Forall_cons_2 || apply Forall_nil_2); reflexivity.
Defined.

End shell_and_tokens.

(** ** Splitting addresses and references *)

Section addresses.
Import Manifest.

Implicit Types (s t h p q f : string) (c : ascii).

Lemma before_last_char_app c h t :
  PyStr.has_char c t = false →
  PyStr.before_last (String c EmptyString) (h +:+ String c t) = Some h.
Proof.
  intros Ht. apply before_last_app.
  - rewrite prefix_char. by rewrite bool_decide_true.
  - by rewrite contains_char.
Qed.

Lemma rsplit1_head_app c h t :
  PyStr.has_char c t = false →
  PyStr.rsplit1_head (String c EmptyString) (h +:+ String c t) = h.
Proof.
  intros Ht. unfold PyStr.rsplit1_head. by rewrite before_last_char_app.
Qed.

Lemma rsplit1_head_none c s :
  PyStr.has_char c s = false → PyStr.rsplit1_head (String c EmptyString) s = s.
Proof.
  intros Hs. unfold PyStr.rsplit1_head.
  by rewrite (proj2 (before_last_char_None c s) Hs).
Qed.

Lemma after_last_char_None c s :
  PyStr.has_char c s = false →
  PyStr.after_last (String c EmptyString) s = None.
Proof.
  induction s as [|a s IH]; [done|].
  cbn [PyStr.has_char PyStr.after_last].
  intros [Ha Hs]%orb_false_elim. rewrite IH by done.
  by rewrite prefix_char, Ha.
Qed.

Lemma after_last_char_app c h t :
  PyStr.has_char c t = false →
  PyStr.after_last (String c EmptyString) (h +:+ String c t) = Some t.
Proof.
  intros Ht. induction h as [|b h IH].
  - rewrite string_app_nil_l. cbn [PyStr.after_last].
    rewrite after_last_char_None by done.
    rewrite prefix_char. by rewrite bool_decide_true.
  - rewrite string_app_cons. cbn [PyStr.after_last]. by rewrite IH.
Qed.

(** X8: the split of line 383 cannot fail.  The address of a stylesheet
    always splits at its last slash into a directory and a file name
    without a slash that, joined by a slash, give the address back; the
    directory is the one the resources of the stylesheet are resolved
    against. *)
Theorem stylesheet_url_split href :
  ∃ dir file,
    PyStr.rsplit1 "/" (stylesheet_url href) = [dir; file] ∧
    stylesheet_url href = dir +:+ "/" +:+ file ∧
    PyStr.has_char "/" file = false ∧
    css_online_dir (stylesheet_url href) = dir.
Proof.
  assert (Hslash : PyStr.has_char "/" (stylesheet_url href) = true).
  { unfold stylesheet_url. by rewrite has_char_app. }
  destruct (rsplit1_head_char "/" (stylesheet_url href))
    as [[Hno _] | (file & Hurl & Hfile)]; [congruence|].
  unfold css_online_dir.
  set (dir := PyStr.rsplit1_head "/" (stylesheet_url href)) in *.
  exists dir, file. split; [|done].
  unfold PyStr.rsplit1. rewrite Hurl.
  by rewrite before_last_char_app, after_last_char_app.
Qed.

(** X9: [normalize] takes a query and a fragment off a path.  With a query
    free of "?" and a fragment free of "#", the path comes back from the
    path followed by both; it comes back from the path followed by the query
    alone when the path holds no "#", from the path followed by the fragment
    alone when the path holds no "?", and a path with neither mark is left
    as it is. *)
Theorem normalize_path p q f :
  PyStr.has_char "?" q = false → PyStr.has_char "#" f = false →
  normalize (p +:+ "?" +:+ q +:+ "#" +:+ f) = p ∧
  (PyStr.has_char "#" p = false → normalize (p +:+ "?" +:+ q) = p) ∧
  (PyStr.has_char "?" p = false → normalize (p +:+ "#" +:+ f) = p) ∧
  (PyStr.has_char "#" p = false → PyStr.has_char "?" p = false →
   normalize p = p).
Proof.
  intros Hq Hf.
  assert (Hfull : ∀ q', PyStr.has_char "?" q' = false →
            normalize (p +:+ "?" +:+ q' +:+ "#" +:+ f) = p).
  { intros q' Hq'. rewrite normalize_cuts.
    replace (p +:+ "?" +:+ q' +:+ "#" +:+ f)
      with ((p +:+ "?" +:+ q') +:+ String "#" f)
      by (by rewrite !string_app_assoc).
    rewrite (rsplit1_head_app "#"%char) by done.
    change (p +:+ "?" +:+ q') with (p +:+ String "?" q').
    by rewrite rsplit1_head_app. }
  split; [by apply Hfull|]. repeat split.
  - intros Hp. destruct (rsplit1_head_char "#" q)
      as [[Hno _] | (f' & Hq' & Hf')].
    + rewrite normalize_cuts, (rsplit1_head_none "#"%char).
      * change (p +:+ "?" +:+ q) with (p +:+ String "?" q).
        by rewrite rsplit1_head_app.
      * rewrite has_char_app, Hp. change ("?" +:+ q) with (String "?" q).
        cbn [PyStr.has_char]. by rewrite Hno.
    + set (q1 := PyStr.rsplit1_head "#" q) in *.
      assert (Hq1 : PyStr.has_char "?" q1 = false).
      { rewrite Hq', has_char_app in Hq. by apply orb_false_elim in Hq as [? _]. }
      rewrite Hq'. rewrite normalize_cuts.
      replace (p +:+ "?" +:+ q1 +:+ String "#" f')
        with ((p +:+ "?" +:+ q1) +:+ String "#" f')
        by (by rewrite !string_app_assoc).
      rewrite (rsplit1_head_app "#"%char) by done.
      change (p +:+ "?" +:+ q1) with (p +:+ String "?" q1).
      by rewrite rsplit1_head_app.
  - intros Hp. rewrite normalize_cuts.
    change (p +:+ "#" +:+ f) with (p +:+ String "#" f).
    rewrite (rsplit1_head_app "#"%char) by done. by apply rsplit1_head_none.
  - intros Hp1 Hp2. rewrite normalize_cuts.
    by rewrite (rsplit1_head_none "#"%char _ Hp1), (rsplit1_head_none _ _ Hp2).
Qed.

Lemma normalize_path_witness :
  normalize "fonts/vw.woff?v=3#iefix" = "fonts/vw.woff".
Proof.
  apply (proj1 (normalize_path "fonts/vw.woff" "v=3" "iefix" eq_refl eq_refl)).
Defined.

(** *** The scan of one stylesheet *)

Implicit Types (d res : list (string * string)).

Lemma dict_set_same k v d : dict_get k d = Some v → dict_set k v d = d.
Proof.
  induction d as [|[k0 v0] d IH]; simpl; [done|].
  case_bool_decide as Hk; [by intros [= ->]; subst|].
  intros Hget. by rewrite IH.
Qed.

Lemma scan_fold_fixed dir refs d :
  (∀ r, r ∈ refs → PyStr.startswith "data:" r = false →
        dict_get (normalize r) d = Some (dir +:+ "/" +:+ normalize r)) →
  fold_left (scan_step dir) refs d = d.
Proof.
  induction refs as [|r refs IH]; intros Hd; [done|]. simpl.
  assert (Hstep : scan_step dir d r = d).
  { unfold scan_step. destruct (PyStr.startswith "data:" r) eqn:Hr; [done|].
    simpl. apply dict_set_same, Hd; [by left | done]. }
  rewrite Hstep. apply IH. intros r' Hr'. apply Hd. by right.
Qed.

(** X10: scanning a stylesheet a second time changes nothing in the
    manifest, and a manifest built from nothing has no local path twice. *)
Theorem scan_css_idempotent dir css_text res :
  scan_css dir css_text (scan_css dir css_text res)
    = scan_css dir css_text res ∧
  NoDup (scan_css dir css_text []).*1.
Proof.
  split.
  - unfold scan_css at 1. apply scan_fold_fixed. intros r Hr Hdata.
    apply scan_fold_get. left. by exists r.
  - apply scan_fold_keys. constructor.
Qed.

(** *** The references the scan finds *)

Lemma span_spec (keep : ascii → bool) s h t :
  PyStr.span keep s = (h, t) →
  s = h +:+ t ∧ ∀ c, PyStr.has_char c h = true → keep c = true.
Proof.
  revert h t. induction s as [|a s IH]; intros h t; cbn [PyStr.span].
  - intros [= <- <-]. by split.
  - destruct (keep a) eqn:Ha.
    + destruct (PyStr.span keep s) as [h' t'] eqn:Hs. intros [= <- <-].
      destruct (IH h' t' eq_refl) as [-> Hall]. split; [done|].
      intros c. cbn [PyStr.has_char].
      intros [Hc | Hc]%orb_prop; [|by apply Hall].
      by apply bool_decide_eq_true in Hc as <-.
    + intros [= <- <-]. by split.
Qed.

Lemma prefix_split s1 : ∀ s2,
  String.prefix s1 s2 = true → ∃ t, s2 = s1 +:+ t.
Proof.
  induction s1 as [|a s1 IH]; intros s2; [by exists s2|].
  destruct s2 as [|b s2]; [done|]. rewrite prefix_cons.
  intros [Hab Hpre]%andb_prop. apply bool_decide_eq_true in Hab as ->.
  destruct (IH s2 Hpre) as [t ->]. by exists t.
Qed.

Lemma match_url_spec s g len :
  match_url s = Some (g, len) →
  g ≠ EmptyString ∧
  PyStr.has_char "(" g = false ∧ PyStr.has_char ")" g = false ∧
  ∃ rest, s = "url(" +:+ g +:+ ")" +:+ rest.
Proof.
  unfold match_url. destruct (String.prefix "url(" s) eqn:Hpre; [|done].
  destruct (prefix_split _ _ Hpre) as [t ->].
  change (PyStr.drop 4 ("url(" +:+ t)) with t.
  destruct (PyStr.span not_paren t) as [h r] eqn:Hspan.
  destruct (span_spec _ _ _ _ Hspan) as [-> Hall].
  destruct h as [|a h]; [done|]. destruct r as [|c r]; [done|].
  case_bool_decide as Hc; [|done]. subst c. intros [= <- <-].
  assert (Hnp : ∀ x, not_paren x = true → x ≠ "("%char ∧ x ≠ ")"%char).
  { intros x [H1 H2]%andb_prop.
    apply negb_true_iff, bool_decide_eq_false in H1.
    apply negb_true_iff, bool_decide_eq_false in H2. done. }
  split; [done|]. repeat split.
  - destruct (PyStr.has_char "(" (String a h)) eqn:Hh; [|done].
    by destruct (Hnp _ (Hall _ Hh)).
  - destruct (PyStr.has_char ")" (String a h)) eqn:Hh; [|done].
    by destruct (Hnp _ (Hall _ Hh)).
  - by exists r.
Qed.

Lemma findall_go_spec (P : string → Prop) s : ∀ skip,
  (∀ t g len, match_url t = Some (g, len) → P g) →
  Forall P (findall_go skip s).
Proof.
  induction s as [|a s IH]; intros skip HP; [constructor|].
  cbn [findall_go]. destruct skip as [|k]; [|by apply IH].
  destruct (match_url (String a s)) as [[g len]|] eqn:Hm; [|by apply IH].
  constructor; [by eapply HP | by apply IH].
Qed.

Lemma contains_further sep a s :
  PyStr.contains sep s = true → PyStr.contains sep (String a s) = true.
Proof. intros Hs. cbn [PyStr.contains]. rewrite Hs. apply orb_true_r. Qed.

Lemma findall_go_occurs s : ∀ skip,
  Forall (λ g, PyStr.contains ("url(" +:+ g +:+ ")") s = true)
         (findall_go skip s).
Proof.
  induction s as [|a s IH]; intros skip; [constructor|].
  assert (Hlift : ∀ k,
    Forall (λ g, PyStr.contains ("url(" +:+ g +:+ ")") (String a s) = true)
           (findall_go k s)).
  { intros k. eapply Forall_impl; [apply IH|].
    intros g Hg. by apply contains_further. }
  cbn [findall_go]. destruct skip as [|k]; [|apply Hlift].
  destruct (match_url (String a s)) as [[g len]|] eqn:Hm; [|apply Hlift].
  constructor; [|apply Hlift].
  destruct (match_url_spec _ _ _ Hm) as (_ & _ & _ & rest & ->).
  apply contains_here.
  replace ("url(" +:+ g +:+ ")" +:+ rest)
    with (("url(" +:+ g +:+ ")") +:+ rest) by (by rewrite !string_app_assoc).
  apply prefix_app.
Qed.

(** X11: what the scan takes for a reference.  Every reference found in
    the text of a stylesheet is a non-empty text without a parenthesis that
    stands in the text between the letters url with an opening parenthesis
    and a closing parenthesis. *)
Theorem findall_url_references css_text :
  Forall (λ g, g ≠ EmptyString ∧
               PyStr.has_char "(" g = false ∧ PyStr.has_char ")" g = false ∧
               PyStr.contains ("url(" +:+ g +:+ ")") css_text = true)
         (findall_url css_text).
Proof.
  apply Forall_and. split; [|apply Forall_and; split; [|apply Forall_and; split]].
  - apply findall_go_spec. intros t g len Hm.
    by destruct (match_url_spec _ _ _ Hm) as (? & _).
  - apply findall_go_spec. intros t g len Hm.
    by destruct (match_url_spec _ _ _ Hm) as (_ & ? & _).
  - apply findall_go_spec. intros t g len Hm.
    by destruct (match_url_spec _ _ _ Hm) as (_ & _ & ? & _).
  - apply findall_go_occurs.
Qed.

End addresses.

(** ** The page passes as a whole *)

Section page_passes.
Import Assembler Links Page.

Implicit Types (refmap : gmap string link_state) (doc : document)
  (st : gmap string attr_value).

Lemma for_each_length body sel : ∀ doc,
  length (for_each body sel doc).1 = length doc.
Proof.
  induction sel as [|i sel IH]; intros doc; simpl; [done|].
  destruct (doc !! i) as [e|]; [|apply IH].
  destruct (body (attrs e)) as [st [[]|ex]]; simpl.
  - by rewrite IH, length_insert.
  - by rewrite length_insert.
Qed.

(** An element leaves a loop untouched or as the body made it, whether the
    loop ends normally or not. *)
Lemma for_each_visit body sel : ∀ doc i e,
  NoDup sel → doc !! i = Some e →
  (for_each body sel doc).1 !! i = Some e ∨
  (for_each body sel doc).1 !! i = Some (Element (tag e) (body (attrs e)).1).
Proof.
  induction sel as [|i0 sel IH]; intros doc i e Hnd Hi; [by left|].
  apply NoDup_cons in Hnd as [Hfresh Hnd]. simpl.
  destruct (doc !! i0) as [e0|] eqn:Hi0; [|by apply IH].
  destruct (body (attrs e0)) as [st0 r] eqn:Hb.
  destruct (decide (i = i0)) as [-> | Hne].
  - assert (e0 = e) as -> by congruence. right. rewrite Hb. simpl.
    assert (Hset : <[i0:=Element (tag e) st0]> doc !! i0
                   = Some (Element (tag e) st0)).
    { apply list_lookup_insert_eq. by eapply lookup_lt_Some. }
    destruct r as [[]|ex]; simpl; [|done].
    by rewrite for_each_frame.
  - assert (Hkeep : <[i0:=Element (tag e0) st0]> doc !! i = Some e)
      by (by rewrite list_lookup_insert_ne).
    destruct r as [[]|ex]; simpl; [by apply IH | by left].
Qed.

Lemma rewrite_dynamic_frame mode refmap st a :
  a ∉ ["href"; "data-goto"; "checked-link"; "data-facets"] →
  (rewrite_dynamic mode refmap st).1 !! a = st !! a.
Proof.
  intros Ha. rewrite rewrite_dynamic_keeps by set_solver.
  apply href_step_frame; set_solver.
Qed.

(** X12: what the link rewrite leaves alone.  Whether it ends normally or
    with an exception, the pass keeps the number and the order of the
    elements and the tag of each, changes no attribute other than [href],
    [data-goto], [checked-link] and [data-facets], and leaves every element
    that is not an [a] exactly as it was. *)
Theorem resolve_frame mode refmap doc i e :
  doc !! i = Some e →
  length (resolve mode refmap doc).1 = length doc ∧
  ∃ e', (resolve mode refmap doc).1 !! i = Some e' ∧
        tag e' = tag e ∧
        (∀ a, a ∉ ["href"; "data-goto"; "checked-link"; "data-facets"] →
              attrs e' !! a = attrs e !! a) ∧
        (tag e ≠ "a" → e' = e).
Proof.
  intros Hi. split.
  - rewrite resolve_unfold. unfold dynamic_pass. rewrite for_each_length.
    unfold fragment_pass. case_bool_decide; [done|]. apply for_each_length.
  - destruct (fragment_pass_frame mode doc i e Hi) as (e1 & He1 & Htag & Hat).
    assert (Hother : tag e ≠ "a" → (resolve mode refmap doc).1 !! i = Some e).
    { intros Hnota.
      assert (Hdyn : is_dynamic_link e = false).
      { unfold is_dynamic_link. by rewrite bool_decide_false. }
      rewrite (resolve_static mode refmap doc i e Hi Hdyn).
      rewrite (fragment_pass_at _ _ _ _ Hi). unfold is_fragment_link.
      rewrite (bool_decide_false (tag e = "a")) by done. simpl.
      by destruct (bool_decide (mode = "all")). }
    rewrite resolve_unfold in *. unfold dynamic_pass in *.
    destruct (for_each_visit (rewrite_dynamic mode refmap)
                (select is_dynamic_link (fragment_pass mode doc).1)
                (fragment_pass mode doc).1 i e1 (select_NoDup _ _) He1)
      as [Hvisit | Hvisit].
    + exists e1. split; [done|]. split; [done|]. split.
      * intros a Ha. apply Hat; set_solver.
      * intros Hnota. specialize (Hother Hnota). congruence.
    + eexists. split; [exact Hvisit|]. simpl. split; [done|]. split.
      * intros a Ha. rewrite rewrite_dynamic_frame by done.
        apply Hat; set_solver.
      * intros Hnota. specialize (Hother Hnota). congruence.
Qed.

Lemma resolve_frame_witness :
  (resolve "single" ∅ [Samples.fig1_link; Element "p" ∅]).1 !! 1
    = Some (Element "p" ∅).
Proof.
  destruct (resolve_frame "single" ∅ [Samples.fig1_link; Element "p" ∅] 1
              (Element "p" ∅) eq_refl) as (_ & e' & He' & _ & _ & Hsame).
  rewrite He'. f_equal. apply Hsame. discriminate.
Defined.

End page_passes.

Section page_criteria.
Import Assembler Links Page.

Implicit Types (refmap : gmap string link_state) (doc : document)
  (st : gmap string attr_value).

Lemma href_step_ok mode refmap st :
  is_ok (rewrite_dynamic_href mode refmap st).2 =
    match st !! "id" with
    | Some (AStr k) =>
        bool_decide (mode = "all") || bool_decide (is_Some (refmap !! k))
    | Some ANone => bool_decide (mode = "all")
    | _ => false
    end.
Proof.
  unfold rewrite_dynamic_href, mbind, act_bind, getitem, setitem, lift,
    dict_contains, dict_getitem, concat, mret, act_ret.
  case_bool_decide as Hm; simpl; rewrite lookup_insert_ne by done.
  - destruct (st !! "id") as [[k|l|]|]; simpl; try done.
    case_bool_decide as Hk; simpl; [|done].
    destruct Hk as [ent Hk]. rewrite Hk.
    destruct (target ent); [|done]. by rewrite lookup_insert_eq.
  - destruct (st !! "id") as [[k|l|]|]; simpl; try done.
    destruct (refmap !! k) as [ent|] eqn:Hk; simpl.
    + done.
    + done.
Qed.

Lemma rewrite_dynamic_ready mode refmap st :
  is_ok (rewrite_dynamic mode refmap st).2 = link_ready mode refmap st.
Proof.
  unfold link_ready. rewrite <- href_step_ok, rewrite_dynamic_unfold.
  pose proof (href_step_frame mode refmap st "checked-link") as H1.
  pose proof (href_step_frame mode refmap st "data-facets") as H2.
  destruct (rewrite_dynamic_href mode refmap st) as [st1 [[]|ex]]; simpl in *.
  - rewrite <- H1, <- H2 by done.
    destruct (st1 !! "checked-link") as [v1|],
             (st1 !! "data-facets") as [v2|]; simpl; try done.
  - by rewrite andb_false_r.
Qed.

Lemma link_ready_ext mode refmap st st' :
  (∀ a, a ≠ "href" → a ≠ "data-goto" → st' !! a = st !! a) →
  link_ready mode refmap st' = link_ready mode refmap st.
Proof. intros H. unfold link_ready. by rewrite !H. Qed.

(** X13: when the link rewrite ends normally.  The pass over a document
    ends without an exception exactly when every dynamic link of the
    document has both volatile attributes and an [id], and, outside 'all'
    mode, an entry for that [id] in the reference map. *)
Theorem resolve_ok_iff mode refmap doc :
  (resolve mode refmap doc).2 = Ok tt ↔
  ∀ i e, doc !! i = Some e → is_dynamic_link e = true →
         link_ready mode refmap (attrs e) = true.
Proof.
  split.
  - intros Hrun i e Hi Hdyn.
    destruct (resolve mode refmap doc) as [doc' r] eqn:Hres.
    simpl in Hrun. subst r.
    destruct (resolve_dynamic _ _ _ _ _ _ Hres Hi Hdyn) as (e1 & He1 & Hok & _).
    destruct (fragment_pass_frame mode doc i e Hi) as (e1' & He1' & _ & Hat).
    rewrite He1' in He1. injection He1 as ->.
    rewrite <- (link_ready_ext mode refmap (attrs e) (attrs e1) Hat).
    by rewrite <- rewrite_dynamic_ready, Hok.
  - intros Hready. rewrite resolve_unfold. unfold dynamic_pass.
    apply for_each_total; [apply select_NoDup|].
    intros i e1 [e1' [He1' Hp]]%select_spec He1.
    rewrite He1 in He1'. injection He1' as <-.
    assert (Hlen : i < length doc).
    { apply lookup_lt_Some in He1. unfold fragment_pass in He1.
      case_bool_decide; [done|]. by rewrite for_each_length in He1. }
    destruct (lookup_lt_is_Some_2 doc i Hlen) as [e Hi].
    destruct (fragment_pass_frame mode doc i e Hi) as (e2 & He2 & Htag & Hat).
    rewrite He1 in He2. injection He2 as <-.
    assert (Hdyn : is_dynamic_link e = true).
    { rewrite <- (is_dynamic_link_ext e1 e); [done | done | by apply Hat]. }
    pose proof (rewrite_dynamic_ready mode refmap (attrs e1)) as Hok.
    rewrite (link_ready_ext mode refmap (attrs e) (attrs e1) Hat) in Hok.
    rewrite (Hready i e Hi Hdyn) in Hok.
    by destruct (rewrite_dynamic mode refmap (attrs e1)) as [st' [[]|ex]].
Qed.

(** *** The expansion of 'all' mode *)

Lemma add_selected_run st cl :
  st !! "class" = Some (AList cl) →
  add_selected st = (<["class" := AList (cl ++ ["selected"])]> st, Ok tt).
Proof.
  intros Hc. unfold add_selected, mbind, act_bind, getitem. by rewrite Hc.
Qed.

Lemma is_expandable_class e :
  is_expandable e = true → ∃ cl, attrs e !! "class" = Some (AList cl).
Proof.
  unfold is_expandable, has_class. intros [_ H]%andb_prop.
  destruct (attrs e !! "class") as [[s|cl|]|]; eauto;
    by rewrite andb_false_r in H.
Qed.

(** X14: the expansion of 'all' mode.  The loop of lines 331-333 never
    fails and keeps the length of the document; in 'all' mode it appends
    the class [selected] to the classes of every title and children block,
    and it leaves every other element, and in the other modes every
    element, as it was. *)
Theorem expand_all_spec mode doc i e :
  doc !! i = Some e →
  (expand_all mode doc).2 = Ok tt ∧
  length (expand_all mode doc).1 = length doc ∧
  (mode = "all" → is_expandable e = true →
     ∃ cl, attrs e !! "class" = Some (AList cl) ∧
           (expand_all mode doc).1 !! i =
             Some (Element (tag e)
                     (<["class" := AList (cl ++ ["selected"])]> (attrs e)))) ∧
  (mode ≠ "all" ∨ is_expandable e = false →
     (expand_all mode doc).1 !! i = Some e).
Proof.
  intros Hi. unfold expand_all. case_bool_decide as Hm.
  - assert (Hok : (for_each add_selected (select is_expandable doc) doc).2
                  = Ok tt).
    { apply for_each_total; [apply select_NoDup|].
      intros j e' [e'' [He'' Hp]]%select_spec He'. simplify_eq.
      destruct (is_expandable_class _ Hp) as [cl Hcl].
      by rewrite (add_selected_run _ _ Hcl). }
    split; [done|]. split; [apply for_each_length|]. split.
    + intros _ Hp. destruct (is_expandable_class _ Hp) as [cl Hcl].
      exists cl. split; [done|].
      destruct (for_each add_selected (select is_expandable doc) doc)
        as [doc' r] eqn:Hrun. simpl in Hok. subst r.
      assert (Hin : i ∈ select is_expandable doc)
        by (apply select_spec; eauto).
      destruct (for_each_ok _ _ _ _ _ _ (select_NoDup _ _) Hrun Hin Hi)
        as [_ Hat].
      simpl. rewrite Hat. by rewrite (add_selected_run _ _ Hcl).
    + intros [? | Hp]; [done|]. rewrite for_each_frame; [done|].
      intros [e' [He' Hp']]%select_spec. congruence.
  - split; [done|]. split; [done|]. split; [done|]. by intros _.
Qed.

Lemma expand_all_spec_witness :
  (expand_all "all" [MoreSamples.title_div]).1 !! 0 =
    Some (Element "div"
            (<["class" := AList ["tttitle"; "selected"]]>
               (attrs MoreSamples.title_div))).
Proof.
  destruct (expand_all_spec "all" [MoreSamples.title_div] 0
              MoreSamples.title_div eq_refl) as (_ & _ & Hall & _).
  destruct (Hall eq_refl eq_refl) as (cl & Hcl & ->).
  injection Hcl as <-. reflexivity.
Defined.

End page_criteria.

(** ** The image loop *)

Section images.
Import Links Manifest Downloads.

Variable server : disk → string → string → outcome.
Variable locate : list string → string.
Variable legacy_str : string.

Implicit Types (soup : document) (d : disk) (a : gmap string attr_value).

(** *** The split at the key marker *)

Lemma split_go_absent sep s : ∀ cur,
  PyStr.contains sep s = false →
  PyStr.split_go sep 0 cur s = [String.rev (String.rev_app s cur)].
Proof.
  induction s as [|c s IH]; intros cur; [done|].
  cbn [PyStr.contains PyStr.split_go].
  intros [-> Hs]%orb_false_elim. by rewrite IH.
Qed.

Lemma rev_app_rev_app (s a b : string) :
  String.rev_app (String.rev_app s a) b = String.rev_app a (s +:+ b).
Proof.
  revert a. induction s as [|c s IH]; intros a; [done|].
  cbn [String.rev_app]. by rewrite IH.
Qed.

Lemma split_absent sep s :
  PyStr.contains sep s = false → PyStr.split sep s = [s].
Proof.
  intros Hs. unfold PyStr.split. rewrite split_go_absent by done.
  unfold String.rev. rewrite rev_app_rev_app. cbn [String.rev_app].
  by rewrite string_app_nil_r.
Qed.

Lemma no_key_match c pre rest :
  PyStr.has_char "=" (String c pre) = false →
  String.prefix "key=" (String c (pre +:+ "key=" +:+ rest)) = false.
Proof.
  intros Hno.
  change ("key=" +:+ rest)
    with (String "k" (String "e" (String "y" (String "=" rest)))).
  destruct pre as [|a [|b [|e pre]]];
    rewrite ?string_app_cons, ?string_app_nil_l, !prefix_cons;
    cbn [PyStr.has_char] in Hno;
    repeat (case_bool_decide; simplify_eq/=; try done).
Qed.

Lemma split_go_key pre rest : ∀ cur,
  PyStr.has_char "=" pre = false →
  PyStr.split_go "key=" 0 cur (pre +:+ "key=" +:+ rest) =
    String.rev (String.rev_app pre cur) :: PyStr.split_go "key=" 0 EmptyString rest.
Proof.
  induction pre as [|c pre IH]; intros cur Hpre.
  - rewrite string_app_nil_l.
    change ("key=" +:+ rest)
      with (String "k" (String "e" (String "y" (String "=" rest)))).
    by destruct rest.
  - rewrite string_app_cons. cbn [PyStr.split_go].
    rewrite no_key_match by done.
    cbn [PyStr.has_char] in Hpre. apply orb_false_elim in Hpre as [_ Hpre].
    by rewrite IH.
Qed.

(** X15: the local name of an image.  For an address made of a part without
    "=", the marker "key=" and a name without the marker, the split of line
    427 gives exactly the two parts, and the name is the file name; for an
    address without the marker it gives the address alone, so that there is
    no second part to take. *)
Theorem split_key_name pre name :
  PyStr.has_char "=" pre = false →
  PyStr.contains "key=" name = false →
  PyStr.split "key=" (pre +:+ "key=" +:+ name) = [pre; name] ∧
  (∀ url, PyStr.contains "key=" url = false →
          PyStr.split "key=" url !! 1 = None).
Proof.
  intros Hpre Hname. split.
  - unfold PyStr.split. rewrite split_go_key by done.
    fold (PyStr.split "key=" name). rewrite split_absent by done.
    unfold String.rev. rewrite rev_app_rev_app. cbn [String.rev_app].
    by rewrite string_app_nil_r.
  - intros url Hurl. by rewrite split_absent.
Qed.

Lemma split_key_name_witness :
  PyStr.split "key=" "/api/img?key=abc.png" = ["/api/img?"; "abc.png"].
Proof.
  apply (proj1 (split_key_name "/api/img?" "abc.png" eq_refl eq_refl)).
Defined.

(** *** The loop *)

Lemma mirror_image_ok a d st d' :
  mirror_image server locate legacy_str a d = (st, d', Ok tt) →
  ∃ src filename,
    a !! "data-src" = Some (AStr src) ∧
    PyStr.split "key=" (image_url legacy_str src) !! 1 = Some filename ∧
    st = <["src" := AStr ("img/" +:+ filename)]> a.
Proof.
  unfold mirror_image, image_url.
  destruct (a !! "data-src") as [[src|cl|]|]; try done.
  destruct (PyStr.split "key=" _ !! 1) as [filename|] eqn:Hname; [|done].
  destruct (fetch_if_missing _ _ _ _) as [d1 [[]|ex]]; [|done].
  intros [= <- <-]. by exists src, filename.
Qed.

Lemma image_loop_frame sel : ∀ soup d j,
  j ∉ sel →
  (image_loop server locate legacy_str sel soup d).1.1 !! j = soup !! j.
Proof.
  induction sel as [|i sel IH]; intros soup d j Hj; simpl; [done|].
  apply not_elem_of_cons in Hj as [Hne Hj].
  destruct (soup !! i) as [e|] eqn:Hi; [|by apply IH].
  destruct (mirror_image server locate legacy_str (attrs e) d)
    as [[st d'] [[]|ex]]; simpl.
  - rewrite IH by done. by rewrite list_lookup_insert_ne.
  - by rewrite list_lookup_insert_ne.
Qed.

Lemma image_loop_ok sel : ∀ soup d soup' d' i e,
  NoDup sel →
  image_loop server locate legacy_str sel soup d = (soup', d', Ok tt) →
  i ∈ sel → soup !! i = Some e →
  ∃ src filename,
    attrs e !! "data-src" = Some (AStr src) ∧
    PyStr.split "key=" (image_url legacy_str src) !! 1 = Some filename ∧
    soup' !! i =
      Some (Element (tag e)
              (<["src" := AStr ("img/" +:+ filename)]> (attrs e))).
Proof.
  induction sel as [|i0 sel IH]; intros soup d soup' d' i e Hnd Hrun Hin Hi;
    [by apply elem_of_nil in Hin|].
  apply NoDup_cons in Hnd as [Hfresh Hnd]. simpl in Hrun.
  apply elem_of_cons in Hin as [-> | Hin].
  - rewrite Hi in Hrun.
    destruct (mirror_image server locate legacy_str (attrs e) d)
      as [[st d1] [[]|ex]] eqn:Hb; [|done].
    destruct (mirror_image_ok _ _ _ _ Hb) as (src & filename & Hsrc & Hname & ->).
    exists src, filename. split; [done|]. split; [done|].
    pose proof (image_loop_frame sel
                  (<[i0:=Element (tag e)
                           (<["src" := AStr ("img/" +:+ filename)]> (attrs e))]>
                     soup) d1 i0 Hfresh) as Hfr.
    rewrite Hrun in Hfr. simpl in Hfr. rewrite Hfr.
    apply list_lookup_insert_eq. by eapply lookup_lt_Some.
  - assert (i ≠ i0) by (intros ->; done).
    destruct (soup !! i0) as [e0|] eqn:Hi0; [|by eapply IH].
    destruct (mirror_image server locate legacy_str (attrs e0) d)
      as [[st d1] [[]|ex]]; [|done].
    eapply IH; [done | exact Hrun | done |].
    by rewrite list_lookup_insert_ne.
Qed.

(** X16: what the image loop writes.  When the two download loops end
    normally, every [img] of the document had a [data-src] whose address
    holds the key marker, and has got as [src] the folder [img], a slash
    and the text between the first marker and the next one; its other
    attributes and every other element are as they were. *)
Theorem images_point_to_local_files soup css_resources d soup' d' i e :
  download_resources server locate legacy_str soup css_resources d
    = (soup', d', Ok tt) →
  soup !! i = Some e →
  (tag e = "img" →
     ∃ src filename,
       attrs e !! "data-src" = Some (AStr src) ∧
       PyStr.split "key=" (image_url legacy_str src) !! 1 = Some filename ∧
       soup' !! i = Some (Element "img"
                            (<["src" := AStr ("img/" +:+ filename)]> (attrs e)))) ∧
  (tag e ≠ "img" → soup' !! i = Some e).
Proof.
  unfold download_resources. intros Hrun Hi.
  destruct (image_loop server locate legacy_str (select is_img soup) soup d)
    as [[soup1 d1] [[]|ex]] eqn:Hloop; [|done].
  destruct (css_loop server locate css_resources d1) as [d2 r].
  injection Hrun as <- _ _. split.
  - intros Htag.
    assert (Hin : i ∈ select is_img soup).
    { apply select_spec. exists e. split; [done|].
      unfold is_img. by rewrite bool_decide_true. }
    destruct (image_loop_ok _ _ _ _ _ _ _ (select_NoDup _ _) Hloop Hin Hi)
      as (src & filename & Hsrc & Hname & Hat).
    exists src, filename. by rewrite Hat, Htag.
  - intros Htag.
    pose proof (image_loop_frame (select is_img soup) soup d i) as Hfr.
    rewrite Hloop in Hfr. simpl in Hfr. rewrite Hfr; [done|].
    intros [e' [He' Hp]]%select_spec. unfold is_img in Hp.
    apply bool_decide_eq_true in Hp. congruence.
Qed.

(** X17: an [img] that cannot be named stops the run.  With no [data-src]
    the body of the loop raises [KeyError]; with an address that holds no
    key marker it raises [IndexError]; in both cases the folder and the
    element are as they were and the download loops do not end normally. *)
Theorem image_without_key soup css_resources d i e :
  soup !! i = Some e → tag e = "img" →
  (attrs e !! "data-src" = None ∨
   ∃ src, attrs e !! "data-src" = Some (AStr src) ∧
          PyStr.contains "key=" (image_url legacy_str src) = false) →
  mirror_image server locate legacy_str (attrs e) d =
    (attrs e, d,
     Raise (match attrs e !! "data-src" with
            | None => KeyError "data-src"
            | Some _ => IndexError
            end)) ∧
  is_ok (download_resources server locate legacy_str soup css_resources d).2
    = false.
Proof.
  intros Hi Htag Hbad.
  assert (Hbody : ∀ d0, mirror_image server locate legacy_str (attrs e) d0 =
    (attrs e, d0,
     Raise (match attrs e !! "data-src" with
            | None => KeyError "data-src"
            | Some _ => IndexError
            end))).
  { intros d0. unfold mirror_image.
    destruct Hbad as [-> | (src & -> & Hno)]; [done|].
    unfold image_url in Hno. by rewrite split_absent. }
  split; [apply Hbody|].
  unfold download_resources.
  destruct (image_loop server locate legacy_str (select is_img soup) soup d)
    as [[soup1 d1] [[]|ex]] eqn:Hloop; [|done].
  assert (Hin : i ∈ select is_img soup).
  { apply select_spec. exists e. split; [done|].
    unfold is_img. by rewrite bool_decide_true. }
  destruct (image_loop_ok _ _ _ _ _ _ _ (select_NoDup _ _) Hloop Hin Hi)
    as (src & filename & Hsrc & Hname & _).
  destruct Hbad as [Hnone | (src' & Hsrc' & Hno)]; [congruence|].
  rewrite Hsrc in Hsrc'. injection Hsrc' as <-.
  by rewrite split_absent in Hname.
Qed.

(** *** No asset twice *)

Hypothesis never_refused : ∀ d url file, server d url file ≠ Refused.

Lemma fetch_if_missing_settled url file d :
  settled d →
  NoDup (requested (fetch_if_missing server url file d).1).*2 ∧
  ((fetch_if_missing server url file d).2 = Ok tt →
   settled (fetch_if_missing server url file d).1).
Proof.
  intros [Hnd Hfiles]. unfold fetch_if_missing.
  case_bool_decide as Hin; [by split|]. unfold download_file.
  assert (Hfresh : NoDup ((requested d ++ [(url, file)]).*2)).
  { rewrite fmap_app. apply NoDup_app. split; [done|]. split.
    - intros p Hp [= ->]%list_elem_of_singleton.
      apply list_elem_of_fmap in Hp as ([u p'] & -> & Hreq).
      apply Hin. by eapply Hfiles.
    - apply NoDup_singleton. }
  destruct (server d url file) as [| |e w] eqn:Hs; simpl.
  - split; [done|]. intros _. split; [done|]. simpl.
    intros u p [Hreq | [= -> ->]%list_elem_of_singleton]%elem_of_app.
    + apply elem_of_union. right. by eapply Hfiles.
    + set_solver.
  - by destruct (never_refused d url file).
  - by split.
Qed.

Lemma css_loop_settled l : ∀ d,
  settled d →
  NoDup (requested (css_loop server locate l d).1).*2 ∧
  ((css_loop server locate l d).2 = Ok tt →
   settled (css_loop server locate l d).1).
Proof.
  induction l as [|[k v] l IH]; intros d Hd; [by destruct Hd|].
  cbn [css_loop].
  destruct (fetch_if_missing_settled v (locate [k]) d Hd) as [Hnd Hok].
  destruct (fetch_if_missing server v (locate [k]) d) as [d1 [[]|ex]];
    simpl in *; [by apply IH, Hok | by split].
Qed.

Lemma image_loop_settled sel : ∀ soup d,
  settled d →
  NoDup (requested (image_loop server locate legacy_str sel soup d).1.2).*2 ∧
  ((image_loop server locate legacy_str sel soup d).2 = Ok tt →
   settled (image_loop server locate legacy_str sel soup d).1.2).
Proof.
  induction sel as [|i sel IH]; intros soup d Hd; simpl; [by destruct Hd|].
  destruct (soup !! i) as [e|]; [|by apply IH].
  assert (Hstep :
    NoDup (requested (mirror_image server locate legacy_str (attrs e) d).1.2).*2 ∧
    ((mirror_image server locate legacy_str (attrs e) d).2 = Ok tt →
     settled (mirror_image server locate legacy_str (attrs e) d).1.2)).
  { unfold mirror_image.
    destruct (attrs e !! "data-src") as [[src|cl|]|];
      try (by destruct Hd).
    destruct (PyStr.split "key=" _ !! 1) as [filename|]; [|by destruct Hd].
    pose proof (fetch_if_missing_settled
                  (if PyStr.startswith "https:" src then src
                   else "https://userguide.volkswagen.de" +:+ legacy_str +:+ src)
                  (locate ["img"; filename]) d Hd) as Hf.
    by destruct (fetch_if_missing _ _ _ _) as [d1 [[]|ex]]. }
  destruct (mirror_image server locate legacy_str (attrs e) d) as [[st d1] r].
  simpl in Hstep. destruct Hstep as [Hnd Hok].
  destruct r as [[]|ex]; simpl; [by apply IH, Hok | by split].
Qed.


End images.

Section image_witnesses.
Import Links Manifest Downloads MoreSamples.

Lemma images_point_to_local_files_witness :
  ∃ soup' d',
    download_resources always_saved plain_locate EmptyString two_images []
      (Disk ∅ []) = (soup', d', Ok tt) ∧
    soup' !! 0 = Some (Element "img"
                         (<["src" := AStr "img/abc.png"]>
                            {["data-src" := AStr "/api/img?key=abc.png"]})).
Proof.
  destruct (download_resources always_saved plain_locate EmptyString
              two_images [] (Disk ∅ []))
    as [[soup' d'] [[]|ex]] eqn:Hrun; [|by vm_compute in Hrun].
  exists soup', d'. split; [done|].
  destruct (images_point_to_local_files always_saved plain_locate EmptyString
              two_images [] (Disk ∅ []) soup' d' 0
              (Element "img" {["data-src" := AStr "/api/img?key=abc.png"]})
              Hrun eq_refl) as [Himg _].
  destruct (Himg eq_refl) as (src & filename & Hsrc & Hname & ->).
  injection Hsrc as <-. vm_compute in Hname. injection Hname as <-.
  reflexivity.
Defined.

Lemma image_without_key_witness :
  is_ok (download_resources always_saved plain_locate EmptyString
           [Element "img" {["data-src" := AStr "/static/logo.png"]}] []
           (Disk ∅ [])).2 = false.
Proof.
  apply (image_without_key always_saved plain_locate EmptyString
           [Element "img" {["data-src" := AStr "/static/logo.png"]}] []
           (Disk ∅ []) 0
           (Element "img" {["data-src" := AStr "/static/logo.png"]})
           eq_refl eq_refl).
  right. exists "/static/logo.png". split; reflexivity.
Defined.


(** A fragment-only reference normalizes to the empty path, which locates
    the folder itself: the call for it breaks and the loop over the manifest
    stops before the next resource. *)
Example fragment_reference_stops_the_loop :
  let manifest :=
    scan_css "https://userguide.volkswagen.de/css"
      "a{clip-path:url(#clip)} b{background:url(i.png)}" [] in
  manifest = [(EmptyString, "https://userguide.volkswagen.de/css/");
              ("i.png", "https://userguide.volkswagen.de/css/i.png")] ∧
  (css_loop folder_server plain_locate manifest (Disk ∅ [])).2 = Raise OSError ∧
  requested (css_loop folder_server plain_locate manifest (Disk ∅ [])).1
    = [("https://userguide.volkswagen.de/css/", EmptyString)].
Proof. by vm_compute. Qed.

End image_witnesses.

(** ** The stylesheets of the page *)

Section stylesheets.
Import Manifest Stylesheets.

Variable css_get : string → nat * string.

Lemma stylesheet_step_ok s0 p0 r0 l s1 p1 r1 :
  stylesheet_step css_get (s0, p0, r0) l = Ok (s1, p1, r1) →
  s1 = s0 +:+ (if is_sheet l && negb (is_print l)
               then sheet_text css_get l +:+ blank_line else EmptyString) ∧
  p1 = p0 +:+ (if is_sheet l && is_print l
               then sheet_text css_get l +:+ blank_line else EmptyString) ∧
  (is_sheet l = true →
   ∃ h, href l = Some h ∧ (css_get (stylesheet_url h)).1 = 200).
Proof.
  unfold stylesheet_step, is_sheet, is_print, sheet_text.
  destruct (rel l) as [[|r0' rels]|]; [done| |done].
  case_bool_decide as Hsheet; cbn [andb].
  - destruct (href l) as [h|]; [|done].
    destruct (css_get (stylesheet_url h)) as [status text] eqn:Hget.
    destruct (Nat.eqb status 200) eqn:Hst; [|done].
    apply Nat.eqb_eq in Hst as ->.
    case_bool_decide as Hprint; cbn [negb]; intros [= <- <- <-];
      rewrite ?string_app_nil_r; (split; [done|]); (split; [done|]);
      intros _; exists h; by rewrite Hget.
  - intros [= <- <- <-]. rewrite !string_app_nil_r. done.
Qed.

(** X19: the two stylesheet buffers.  When the loop over the [link]
    elements ends normally, every link whose first [rel] value is
    "stylesheet", in any case of letters, had an [href] and was answered
    with status 200; the print buffer has got the texts of those with media
    "print" and the screen buffer the texts of all the others, each text
    followed by a blank line, in the order of the links, after what the
    buffers held before. *)
Theorem stylesheet_buffers links : ∀ s0 p0 r0 s p r,
  stylesheet_loop css_get links (s0, p0, r0) = Ok (s, p, r) →
  s = s0 +:+ buffer_of css_get (λ l, is_sheet l && negb (is_print l)) links ∧
  p = p0 +:+ buffer_of css_get (λ l, is_sheet l && is_print l) links ∧
  Forall (λ l, is_sheet l = true →
               ∃ h, href l = Some h ∧ (css_get (stylesheet_url h)).1 = 200)
         links.
Proof.
  induction links as [|l links IH]; intros s0 p0 r0 s p r Hrun.
  - injection Hrun as <- <- <-. by rewrite !string_app_nil_r.
  - cbn [stylesheet_loop] in Hrun.
    destruct (stylesheet_step css_get (s0, p0, r0) l) as [[[s1 p1] r1]|e]
      eqn:Hstep; [|done].
    destruct (IH _ _ _ _ _ _ Hrun) as (-> & -> & Hall).
    destruct (stylesheet_step_ok _ _ _ _ _ _ _ Hstep) as (-> & -> & Hthis).
    cbn [buffer_of]. split; [|split]; [| |by constructor].
    + destruct (is_sheet l && negb (is_print l));
        by rewrite ?string_app_assoc, ?string_app_nil_r.
    + destruct (is_sheet l && is_print l);
        by rewrite ?string_app_assoc, ?string_app_nil_r.
Qed.

End stylesheets.

Section stylesheet_witnesses.
Import Manifest Stylesheets MoreSamples.

Lemma stylesheet_buffers_witness :
  ∃ r,
    stylesheet_loop sample_css_get sample_links (EmptyString, EmptyString, [])
      = Ok ("a{background:url(icons/x.png?v=2)}" +:+ blank_line,
            "p{color:black}" +:+ blank_line, r).
Proof.
  destruct (stylesheet_loop sample_css_get sample_links
              (EmptyString, EmptyString, [])) as [[[s p] r]|e] eqn:Hrun;
    [|by vm_compute in Hrun].
  destruct (stylesheet_buffers sample_css_get sample_links _ _ _ _ _ _ Hrun)
    as (-> & -> & _).
  exists r. reflexivity.
Defined.

End stylesheet_witnesses.
